(** * Bug-Tracker API: the access-control and audit core

    A shallow embedding of [src/models/report.ts] and of the handlers of
    [src/routes/reports.ts]. A handler is modelled from the point where the
    [requireAuth] middleware of [src/middleware/auth.ts] has attached the
    caller to the request ([req_user]); the download route has no such
    middleware and verifies its own token.

    Modelling conventions.
    - JavaScript objects are reference values: a [Report] lives in a heap
      ([gmap loc Report]) and the static array [ReportStore.reports] holds
      locations.  [getReport] hands out the location it finds, and the
      handlers write through it, as the TypeScript does.
    - JavaScript numbers are modelled by [Z]; [NaN] is [None] in an
      [option Z].  Ids stay far below 2^53, where the two agree.
    - [new Date()] reads the clock carried by the request ([req_now]).
    - [jsonwebtoken] is an external library: [jwt.sign] and [jwt.verify] are
      parameters of the handlers that use them. *)

From Stdlib Require Import ZArith Ascii String List Bool Lia Sorted.
From stdpp Require Import base option list gmap strings.

Local Open Scope string_scope.
Local Open Scope Z_scope.

(** ** JavaScript string and number primitives *)

Module JS.

(** [String.prototype.toLowerCase], on the ASCII range. The properties
    below compare lower-cased titles and never look inside this function. *)
Definition lower_ascii (c : ascii) : ascii :=
  let n := nat_of_ascii c in
  if (Nat.leb 65 n && Nat.leb n 90)%bool then ascii_of_nat (n + 32) else c.

Fixpoint toLowerCase (s : string) : string :=
  match s with
  | EmptyString => EmptyString
  | String c s' => String (lower_ascii c) (toLowerCase s')
  end.

(** Truthiness of a string: the empty string is falsy. *)
Definition truthy_str (s : string) : bool :=
  match s with EmptyString => false | String _ _ => true end.

(** A JavaScript number as far as this program needs it: [None] is
    [NaN], [Some z] the integer [z]. *)
Definition num := option Z.

Definition isNaN (n : num) : bool :=
  match n with None => true | Some _ => false end.

(** Truthiness of a number: [NaN] and [0] are falsy. *)
Definition truthy_num (n : num) : bool :=
  match n with None => false | Some z => negb (z =? 0) end.

Definition is_space (c : ascii) : bool :=
  let n := nat_of_ascii c in
  (Nat.eqb n 32 || (Nat.leb 9 n && Nat.leb n 13))%bool.

Definition digit_val (c : ascii) : option Z :=
  let n := nat_of_ascii c in
  if (Nat.leb 48 n && Nat.leb n 57)%bool then Some (Z.of_nat (n - 48)) else None.

Fixpoint skip_spaces (s : string) : string :=
  match s with
  | String c s' => if is_space c then skip_spaces s' else s
  | EmptyString => s
  end.

(** The longest prefix of decimal digits, read left to right; [acc] is
    [None] until the first digit has been seen. *)
Fixpoint read_digits (acc : option Z) (s : string) : option Z :=
  match s with
  | String c s' =>
      match digit_val c with
      | Some d =>
          read_digits (Some (10 * (match acc with Some a => a | None => 0 end) + d)) s'
      | None => acc
      end
  | EmptyString => acc
  end.

(** [parseInt(s, 10)]: leading white space, an optional sign, then the
    longest run of digits; [NaN] when there is no digit. *)
Definition parseInt (s : string) : num :=
  match skip_spaces s with
  | String "-" s' => Z.opp <$> read_digits None s'
  | String "+" s' => read_digits None s'
  | s' => read_digits None s'
  end.

End JS.

(** ** JSON request bodies *)

(** What [express.json()] leaves in [req.body]. An object is the list of its
    own keys in insertion order; a well-formed object has distinct keys. *)
#[warnings="-register-all"] Inductive JVal :=
| JNull
| JBool (b : bool)
| JNum (z : Z)
| JStr (s : string)
| JArr (items : list JVal)
| JObj (fields : list (string * JVal)).

(** Truthiness of a body ([!req.body]); [None] is [undefined]. *)
Definition truthy_body (b : option JVal) : bool :=
  match b with
  | None | Some JNull | Some (JBool false) => false
  | Some (JNum z) => negb (Z.eqb z 0)
  | Some (JStr s) => JS.truthy_str s
  | Some _ => true
  end.

(** [Object.keys(v).length] *)
Definition keys_length (v : JVal) : nat :=
  match v with
  | JObj fields => length fields
  | JArr items => length items
  | JStr s => String.length s
  | _ => O
  end.

Fixpoint field (k : string) (fields : list (string * JVal)) : option JVal :=
  match fields with
  | [] => None
  | (k', v) :: rest => if String.eqb k k' then Some v else field k rest
  end.

(** ** The data model of [models/report.ts] *)

Inductive Severity := low | medium | high | critical.

Definition Severity_eqb (a b : Severity) : bool :=
  match a, b with
  | low, low | medium, medium | high, high | critical, critical => true
  | _, _ => false
  end.

(** A severity is its string literal at run time. *)
Definition Severity_str (s : Severity) : string :=
  match s with
  | low => "low" | medium => "medium" | high => "high" | critical => "critical"
  end.

Definition Severity_of_str (s : string) : option Severity :=
  if String.eqb s "low" then Some low
  else if String.eqb s "medium" then Some medium
  else if String.eqb s "high" then Some high
  else if String.eqb s "critical" then Some critical
  else None.

(** Dates are milliseconds since the epoch. *)
Definition Date := Z.

Record Entry := mkEntry {
  entry_id : Z;
  entry_author : string;
  entry_comment : string;
  entry_createdAt : Date
}.

Record Attachment := mkAttachment {
  att_filename : string;
  att_originalName : string;
  att_mimetype : string;
  att_size : Z;
  att_uploadedAt : Date
}.

Record Report := mkReport {
  id : Z;
  title : string;
  description : string;
  severity : Severity;
  createdAt : Date;
  updatedAt : Date;
  entries : list Entry;
  attachments : list Attachment
}.

(** [AuthPayload] of [middleware/auth.ts]. *)
Inductive Role := admin | developer.

Record AuthPayload := mkAuth {
  user_id : string;
  user_role : Role
}.

(** [AuditEntry] of [routes/reports.ts]; [changes] maps a field name to
    the pair (old value, new value). *)
Record AuditEntry := mkAudit {
  audit_reportId : Z;
  audit_userId : string;
  audit_changes : gmap string (string * string);
  audit_timestamp : Date
}.

(** ** Program state

    [heap] holds the [Report] objects, [reports] and [nextId] are the two
    static fields of [ReportStore], [auditLogs] is the module-level array
    of [routes/reports.ts]. *)
Definition loc := positive.

Record State := mkState {
  heap : gmap loc Report;
  reports : list loc;
  nextId : Z;
  auditLogs : list AuditEntry
}.

Definition initial : State :=
  {| heap := ∅; reports := []; nextId := 1; auditLogs := [] |}.

(** Reading through a reference. A reference the program holds always
    points to an allocated object; [unallocated] stands for the contents of
    a location that holds none, which no reference in [reports] designates
    in a well-formed state (see [wf]). *)
Definition unallocated : Report :=
  {| id := 0; title := ""; description := ""; severity := low;
     createdAt := 0; updatedAt := 0; entries := []; attachments := [] |}.

Definition deref (st : State) (l : loc) : Report :=
  default unallocated (heap st !! l).

(** The stored reports, in array order. *)
Definition stored (st : State) : list Report := map (deref st) (reports st).

(** Assignment through a reference: [l.f = v] for the object at [l]. *)
Definition write (l : loc) (f : Report -> Report) (st : State) : State :=
  {| heap := <[l := f (deref st l)]> (heap st); reports := reports st;
     nextId := nextId st; auditLogs := auditLogs st |}.

Definition set_title (v : string) (r : Report) : Report :=
  mkReport (id r) v (description r) (severity r) (createdAt r) (updatedAt r)
           (entries r) (attachments r).
Definition set_description (v : string) (r : Report) : Report :=
  mkReport (id r) (title r) v (severity r) (createdAt r) (updatedAt r)
           (entries r) (attachments r).
Definition set_severity (v : Severity) (r : Report) : Report :=
  mkReport (id r) (title r) (description r) v (createdAt r) (updatedAt r)
           (entries r) (attachments r).
Definition set_updatedAt (v : Date) (r : Report) : Report :=
  mkReport (id r) (title r) (description r) (severity r) (createdAt r) v
           (entries r) (attachments r).
(** [r.attachments.push(a)] *)
Definition push_attachment (a : Attachment) (r : Report) : Report :=
  mkReport (id r) (title r) (description r) (severity r) (createdAt r) (updatedAt r)
           (entries r) (attachments r ++ [a]).

(** ** [class ReportStore] *)

Module ReportStore.

(** [this.reports.findIndex(p)]: the index of the first element, in array
    order, whose object satisfies [p]; [None] is [-1]. *)
Fixpoint findIndex (st : State) (p : Report -> bool) (ls : list loc) : option nat :=
  match ls with
  | [] => None
  | l :: ls' => if p (deref st l) then Some O else S <$> findIndex st p ls'
  end.

(** [getReport(id)]: [this.reports.find(...)], the reference of the stored
    object itself. *)
Definition getReport (st : State) (i : Z) : option loc :=
  List.find (fun l => Z.eqb (id (deref st l)) i) (reports st).

(** [getAllReports()] returns [this.reports]: a reference to the one
    array the store keeps, not a copy of it. *)
Inductive ArrayRef := reports_array.

Definition getAllReports (st : State) : ArrayRef := reports_array.

(** The elements seen through an array reference. *)
Definition elements_of (a : ArrayRef) (st : State) : list loc :=
  match a with reports_array => reports st end.

(** [a.pop()] through an array reference. *)
Definition array_pop (a : ArrayRef) (st : State) : State :=
  match a with
  | reports_array =>
      {| heap := heap st; reports := removelast (reports st);
         nextId := nextId st; auditLogs := auditLogs st |}
  end.

(** [titleExists(title, excludeId?)]: [this.reports.some(...)].
    [excludeId] is tested for truthiness, so [undefined] and [0] both
    exclude nothing. *)
Definition titleExists (st : State) (t : string) (excludeId : option Z) : bool :=
  existsb
    (fun l =>
       let report := deref st l in
       String.eqb (JS.toLowerCase (title report)) (JS.toLowerCase t)
       && match excludeId with
          | Some e => if Z.eqb e 0 then true else negb (Z.eqb (id report) e)
          | None => true
          end)
    (reports st).

(** [addReport(data)]: a new object, pushed on the array; [nextId++]. *)
Definition addReport (st : State) (t d : string) (s : Severity) (now : Date)
  : loc * State :=
  let newReport := fresh (dom (heap st)) in
  (newReport,
   {| heap := <[newReport :=
                  {| id := nextId st; title := t; description := d; severity := s;
                     createdAt := now; updatedAt := now;
                     entries := []; attachments := [] |}]> (heap st);
      reports := reports st ++ [newReport];
      nextId := nextId st + 1;
      auditLogs := auditLogs st |}).

(** [updateReport(id, updates)] *)
Definition updateReport (st : State) (i : Z)
    (utitle udescription : option string) (useverity : option Severity) (now : Date)
  : option loc * State :=
  match getReport st i with
  | None => (None, st)
  | Some report =>
      let st := match utitle with
                | Some t => write report (set_title t) st | None => st end in
      let st := match udescription with
                | Some d => write report (set_description d) st | None => st end in
      let st := match useverity with
                | Some s => write report (set_severity s) st | None => st end in
      (Some report, write report (set_updatedAt now) st)
  end.

(** [addAttachment(reportId, attachment)] *)
Definition addAttachment (st : State) (reportId : Z) (a : Attachment) (now : Date)
  : option Attachment * State :=
  match getReport st reportId with
  | None => (None, st)
  | Some report =>
      (Some a, write report (set_updatedAt now) (write report (push_attachment a) st))
  end.

(** [this.reports.splice(index, 1)] *)
Definition splice1 {A} (index : nat) (ls : list A) : list A :=
  take index ls ++ drop (S index) ls.

(** [deleteReport(id)] *)
Definition deleteReport (st : State) (i : Z) : bool * State :=
  match findIndex st (fun report => Z.eqb (id report) i) (reports st) with
  | None => (false, st)
  | Some index =>
      (true, {| heap := heap st; reports := splice1 index (reports st);
                nextId := nextId st; auditLogs := auditLogs st |})
  end.

End ReportStore.

(** ** Requests and responses *)

(** [req.file], as multer fills it. *)
Record UploadedFile := mkFile {
  file_filename : string;
  file_originalname : string;
  file_mimetype : string;
  file_size : Z
}.

(** The parts of an Express request the handlers read. [req_user] is what
    the [requireAuth] middleware has attached before a handler runs;
    [req_now] is the clock. *)
Record Request := mkRequest {
  params_id : string;
  params_filename : string;
  query_include : option string;
  query_order : option string;
  query_page : option string;
  query_pageSize : option string;
  query_token : option string;
  req_body : option JVal;
  req_user : option AuthPayload;
  req_file : option UploadedFile;
  req_now : Date
}.

(** The report summary every endpoint answers with. *)
Record Summary := mkSummary {
  sum_id : Z;
  sum_title : string;
  sum_description : string;
  sum_severity : Severity;
  sum_createdAt : Date;
  sum_updatedAt : Date;
  sum_entryCount : nat;
  sum_severityScore : Z
}.

Inductive Payload :=
| Error (error : string)
| ErrorDetails (error : string)  (* with zod's issue list as [details] *)
| ReportSummary (s : Summary)
| ReportEntries (s : Summary) (es : list Entry)
| DownloadUrl (reportId : Z) (filename : string) (token : string)
| SendFile (contentType : string) (originalName : string) (path : string).

Record Response := mkResponse {
  status : Z;
  payload : Payload
}.

(** Comparison of roles ([req.user.role !== 'admin']). *)
Definition Role_eqb (a b : Role) : bool :=
  match a, b with
  | admin, admin | developer, developer => true
  | _, _ => false
  end.

(** ** [routes/reports.ts] *)

(** *** Validation schemas *)

Record NewReport := mkNewReport {
  new_title : string;
  new_description : string;
  new_severity : Severity
}.

Record Updates := mkUpdates {
  upd_title : option string;
  upd_description : option string;
  upd_severity : option Severity
}.

(** [.strict()]: no key outside the schema's own. *)
Definition strict_keys (fields : list (string * JVal)) : bool :=
  forallb (fun kv => String.eqb (fst kv) "title"
                     || String.eqb (fst kv) "description"
                     || String.eqb (fst kv) "severity") fields.

(** [z.string().min(1)]; [None] is the parse failure. *)
Definition string_min1 (v : JVal) : option string :=
  match v with
  | JStr s => if JS.truthy_str s then Some s else None
  | _ => None
  end.

(** [SeverityEnum] *)
Definition SeverityEnum (v : JVal) : option Severity :=
  match v with
  | JStr s => Severity_of_str s
  | _ => None
  end.

(** [schema.optional()]: an absent key parses to [undefined]. *)
Definition optional {A} (schema : JVal -> option A) (v : option JVal) : option (option A) :=
  match v with
  | None => Some None
  | Some v' => Some <$> schema v'
  end.

(** [NewReportSchema.safeParse(body)]; [None] is [success: false]. *)
Definition NewReportSchema (body : option JVal) : option NewReport :=
  match body with
  | Some (JObj fields) =>
      if strict_keys fields then
        t ← field "title" fields ≫= string_min1;
        d ← field "description" fields ≫= string_min1;
        s ← optional SeverityEnum (field "severity" fields);
        Some (mkNewReport t d (default low s))
      else None
  | _ => None
  end.

(** [UpdateReportSchema.safeParse(body)] *)
Definition UpdateReportSchema (body : option JVal) : option Updates :=
  match body with
  | Some (JObj fields) =>
      if strict_keys fields then
        t ← optional string_min1 (field "title" fields);
        d ← optional string_min1 (field "description" fields);
        s ← optional SeverityEnum (field "severity" fields);
        Some (mkUpdates t d s)
      else None
  | _ => None
  end.

Definition severityScoreMap (s : Severity) : Z :=
  match s with
  | low => 1 | medium => 2 | high => 3 | critical => 4
  end.

(** The summary object built from a report. *)
Definition summary (r : Report) : Summary :=
  {| sum_id := id r; sum_title := title r; sum_description := description r;
     sum_severity := severity r; sum_createdAt := createdAt r;
     sum_updatedAt := updatedAt r; sum_entryCount := length (entries r);
     sum_severityScore := severityScoreMap (severity r) |}.

(** *** GET /reports/:id *)

(** [entries.sort(cmp)]: a stable sort; [before y x] is [cmp(y, x) < 0]. *)
Fixpoint insert_entry (before : Entry -> Entry -> bool) (x : Entry) (l : list Entry)
  : list Entry :=
  match l with
  | [] => [x]
  | y :: l' => if before y x then y :: insert_entry before x l' else x :: l
  end.

Definition sort_entries (before : Entry -> Entry -> bool) (l : list Entry) : list Entry :=
  foldr (insert_entry before) [] l.

Definition asc_before (a b : Entry) : bool := entry_createdAt a <? entry_createdAt b.
Definition desc_before (a b : Entry) : bool := entry_createdAt b <? entry_createdAt a.

(** A query parameter read as [q ? parseInt(q, 10) : undefined]; the outer
    [None] is [undefined]. *)
Definition query_int (q : option string) : option JS.num :=
  match q with
  | Some s => if JS.truthy_str s then Some (JS.parseInt s) else None
  | None => None
  end.

(** Truthiness of [number | undefined]. *)
Definition truthy (v : option JS.num) : bool :=
  match v with
  | Some n => JS.truthy_num n
  | None => false
  end.

(** [v < 1] for a number; comparisons with [NaN] are false. *)
Definition lt1 (v : option JS.num) : bool :=
  match v with
  | Some (Some z) => z <? 1
  | _ => false
  end.

(** [isNaN(v)] for [number | undefined]; [isNaN(undefined)] is true. *)
Definition isNaN_opt (v : option JS.num) : bool :=
  match v with
  | Some n => JS.isNaN n
  | None => true
  end.

Definition num_value (v : option JS.num) : Z :=
  match v with
  | Some (Some z) => z
  | _ => 0
  end.

(** The values of [page] and [pageSize] after the two defaulting
    statements. *)
Definition paging (req : Request) : option JS.num * option JS.num :=
  let page := query_int (query_page req) in
  let pageSize := query_int (query_pageSize req) in
  let pageSize := if truthy page && negb (truthy pageSize) then Some (Some 10) else pageSize in
  let page := if negb (truthy page) && truthy pageSize then Some (Some 1) else page in
  (page, pageSize).

(** [entries.slice(start, start + count)] for [start >= 0]. *)
Definition slice (start count : Z) (l : list Entry) : list Entry :=
  take (Z.to_nat count) (drop (Z.to_nat start) l).

Definition get_report (req : Request) (st : State) : Response :=
  match JS.parseInt (params_id req) with
  | None => mkResponse 400 (Error "Invalid report ID format")
  | Some i =>
      match ReportStore.getReport st i with
      | None => mkResponse 404 (Error "Report not found")
      | Some l =>
          let report := deref st l in
          if bool_decide (query_include req = Some "entries") then
            let before := if bool_decide (query_order req = Some "asc")
                          then asc_before else desc_before in
            let entries := sort_entries before (entries report) in
            let '(page, pageSize) := paging req in
            if truthy page && truthy pageSize then
              if isNaN_opt page || isNaN_opt pageSize || lt1 page || lt1 pageSize
              then mkResponse 400 (Error "Invalid pagination parameters")
              else
                let startIndex := (num_value page - 1) * num_value pageSize in
                mkResponse 200
                  (ReportEntries (summary report)
                                 (slice startIndex (num_value pageSize) entries))
            else mkResponse 200 (ReportEntries (summary report) entries)
          else mkResponse 200 (ReportSummary (summary report))
      end
  end.

(** *** POST /reports *)

Definition post_report (req : Request) (st : State) : Response * State :=
  match NewReportSchema (req_body req) with
  | None => (mkResponse 400 (ErrorDetails "Invalid request data"), st)
  | Some data =>
      if ReportStore.titleExists st (new_title data) None
      then (mkResponse 409 (Error "A report with this title already exists"), st)
      else
        let '(l, st') :=
          ReportStore.addReport st (new_title data) (new_description data)
                                (new_severity data) (req_now req) in
        let newReport := deref st' l in
        (mkResponse 201
           (ReportSummary
              {| sum_id := id newReport; sum_title := title newReport;
                 sum_description := description newReport;
                 sum_severity := severity newReport;
                 sum_createdAt := createdAt newReport;
                 sum_updatedAt := updatedAt newReport;
                 sum_entryCount := 0;
                 sum_severityScore := severityScoreMap (severity newReport) |}),
         st')
  end.

(** *** PUT /reports/:id *)

(** [auditLogs.push(entry)] *)
Definition push_audit (e : AuditEntry) (st : State) : State :=
  {| heap := heap st; reports := reports st; nextId := nextId st;
     auditLogs := auditLogs st ++ [e] |}.

(** The three "apply changes and record diffs" statements: each reads the
    current field through the reference [report], and when the supplied
    value differs records the pair in [changes] and assigns the field. *)
Definition diff_title (updates : Updates) (report : loc)
    (acc : gmap string (string * string) * State)
  : gmap string (string * string) * State :=
  let '(changes, st) := acc in
  match upd_title updates with
  | Some t =>
      if negb (String.eqb t (title (deref st report)))
      then (<["title" := (title (deref st report), t)]> changes,
            write report (set_title t) st)
      else acc
  | None => acc
  end.

Definition diff_description (updates : Updates) (report : loc)
    (acc : gmap string (string * string) * State)
  : gmap string (string * string) * State :=
  let '(changes, st) := acc in
  match upd_description updates with
  | Some d =>
      if negb (String.eqb d (description (deref st report)))
      then (<["description" := (description (deref st report), d)]> changes,
            write report (set_description d) st)
      else acc
  | None => acc
  end.

Definition diff_severity (updates : Updates) (report : loc)
    (acc : gmap string (string * string) * State)
  : gmap string (string * string) * State :=
  let '(changes, st) := acc in
  match upd_severity updates with
  | Some s =>
      if negb (Severity_eqb s (severity (deref st report)))
      then (<["severity" := (Severity_str (severity (deref st report)), Severity_str s)]>
              changes,
            write report (set_severity s) st)
      else acc
  | None => acc
  end.

(** [updates.title && ReportStore.titleExists(updates.title, id)] *)
Definition title_taken (st : State) (updates : Updates) (i : Z) : bool :=
  match upd_title updates with
  | Some t => JS.truthy_str t && ReportStore.titleExists st t (Some i)
  | None => false
  end.

(** [updates.severity === 'critical' && req.user && req.user.role !== 'admin'] *)
Definition escalation_denied (updates : Updates) (req : Request) : bool :=
  match upd_severity updates, req_user req with
  | Some critical, Some u => negb (Role_eqb (user_role u) admin)
  | _, _ => false
  end.

Definition put_report (req : Request) (st : State) : Response * State :=
  match JS.parseInt (params_id req) with
  | None => (mkResponse 400 (Error "Invalid report ID format"), st)
  | Some i =>
      if negb (truthy_body (req_body req))
         || Nat.eqb (from_option keys_length O (req_body req)) 0
      then (mkResponse 400 (Error "No update data provided"), st)
      else
        match UpdateReportSchema (req_body req) with
        | None => (mkResponse 400 (ErrorDetails "Invalid update data"), st)
        | Some updates =>
            match ReportStore.getReport st i with
            | None => (mkResponse 404 (Error "Report not found"), st)
            | Some report =>
                if title_taken st updates i
                then (mkResponse 409
                        (Error "Another report with this title already exists"), st)
                else if escalation_denied updates req
                then (mkResponse 403
                        (Error "Only admins can escalate severity to critical"), st)
                else
                  let '(changes, st) :=
                    diff_severity updates report
                      (diff_description updates report
                         (diff_title updates report (∅, st))) in
                  if Nat.ltb 0 (size changes) then
                    let st := write report (set_updatedAt (req_now req)) st in
                    let st :=
                      push_audit
                        {| audit_reportId := id (deref st report);
                           audit_userId :=
                             match req_user req with
                             | Some u => user_id u
                             | None => "unknown"
                             end;
                           audit_changes := changes;
                           audit_timestamp := req_now req |} st in
                    (mkResponse 200 (ReportSummary (summary (deref st report))), st)
                  else
                    (mkResponse 200 (ReportSummary (summary (deref st report))), st)
            end
        end
  end.

(** *** Attachments: upload and signed download *)

(** The claim sets this program signs with [JWT_SECRET]: the session
    payload of /auth/login and the file capability of the upload route. *)
Inductive Claims :=
| SessionClaims (u : AuthPayload)
| FileClaims (reportId : Z) (file : string).

Section Tokens.

(** [jwt.sign(claims, JWT_SECRET, { expiresIn })] at a given time, with the
    time to live in seconds, and [jwt.verify(token, JWT_SECRET)] at a given
    time; [None] is a thrown error (bad signature, malformed, expired). *)
Variable jwt_sign : Claims -> Z -> Date -> string.
Variable jwt_verify : string -> Date -> option Claims.

(** POST /reports/:id/attachment *)
Definition post_attachment (req : Request) (st : State) : Response * State :=
  match JS.parseInt (params_id req) with
  | None => (mkResponse 400 (Error "Invalid report ID format"), st)
  | Some i =>
      match ReportStore.getReport st i with
      | None => (mkResponse 404 (Error "Report not found"), st)
      | Some report =>
          match req_file req with
          | None => (mkResponse 400 (Error "No file uploaded"), st)
          | Some f =>
              let attachment :=
                {| att_filename := file_filename f;
                   att_originalName := file_originalname f;
                   att_mimetype := file_mimetype f;
                   att_size := file_size f;
                   att_uploadedAt := req_now req |} in
              let '(_, st) := ReportStore.addAttachment st i attachment (req_now req) in
              let token :=
                jwt_sign (FileClaims i (att_filename attachment)) (15 * 60) (req_now req) in
              (mkResponse 200 (DownloadUrl i (att_filename attachment) token), st)
          end
      end
  end.

(** [decoded.reportId !== id || decoded.file !== filename]; a session
    payload has neither field. *)
Definition scope_mismatch (decoded : Claims) (i : Z) (filename : string) : bool :=
  match decoded with
  | FileClaims reportId file =>
      negb (Z.eqb reportId i) || negb (String.eqb file filename)
  | SessionClaims _ => true
  end.

(** GET /reports/:id/attachment/:filename *)
Definition get_attachment (req : Request) (st : State) : Response :=
  let filename := params_filename req in
  match JS.parseInt (params_id req), JS.truthy_str filename with
  | Some i, true =>
      match query_token req with
      | Some token =>
          if JS.truthy_str token then
            match jwt_verify token (req_now req) with
            | None => mkResponse 401 (Error "Unauthorized or expired token")
            | Some decoded =>
                if scope_mismatch decoded i filename
                then mkResponse 403 (Error "Invalid token for this file")
                else
                  match ReportStore.getReport st i with
                  | None => mkResponse 404 (Error "File not found")
                  | Some report =>
                      match List.find (fun att => String.eqb (att_filename att) filename)
                                      (attachments (deref st report)) with
                      | None => mkResponse 404 (Error "File not found")
                      | Some attachment =>
                          mkResponse 200
                            (SendFile (att_mimetype attachment)
                                      (att_originalName attachment)
                                      ("uploads/" +:+ filename))
                      end
                  end
            end
          else mkResponse 401 (Error "Missing access token")
      | None => mkResponse 401 (Error "Missing access token")
      end
  | _, _ => mkResponse 400 (Error "Invalid request")
  end.

End Tokens.

(** ** Histories and invariants *)

(** A request with its authenticated caller replaced. *)
Definition as_user (u : AuthPayload) (req : Request) : Request :=
  {| params_id := params_id req; params_filename := params_filename req;
     query_include := query_include req; query_order := query_order req;
     query_page := query_page req; query_pageSize := query_pageSize req;
     query_token := query_token req; req_body := req_body req;
     req_user := Some u; req_file := req_file req; req_now := req_now req |}.

(** One state change of the running service: a request served by one of
    the mutating routes, or [ReportStore.deleteReport], the store's only
    removal. The GET routes do not change the state. *)
Inductive step : State -> State -> Prop :=
| step_post_report req st :
    step st (snd (post_report req st))
| step_put_report req st :
    step st (snd (put_report req st))
| step_post_attachment jwt_sign req st :
    step st (snd (post_attachment jwt_sign req st))
| step_deleteReport i st :
    step st (snd (ReportStore.deleteReport st i)).

(** The states the service can be in: [initial] at start-up, then one
    step at a time. *)
Inductive reachable : State -> Prop :=
| reachable_initial : reachable initial
| reachable_step st st' : reachable st -> step st st' -> reachable st'.

(** Case-insensitive title equality, as [titleExists] compares. *)
Definition same_title (a b : string) : Prop :=
  JS.toLowerCase a = JS.toLowerCase b.

(** No two entries of the [reports] array hold case-insensitively equal
    titles. *)
Definition unique_titles (st : State) : Prop :=
  ∀ (i j : nat) (r1 r2 : Report),
    stored st !! i = Some r1 → stored st !! j = Some r2 →
    same_title (title r1) (title r2) → i = j.

(** The store invariant. *)
Record wf (st : State) : Prop := mk_wf {
  wf_next : 0 < nextId st;
  wf_alloc : ∀ l, l ∈ reports st → l ∈ dom (heap st);
  wf_nodup : NoDup (reports st);
  wf_id_range : ∀ l, l ∈ reports st → 0 < id (deref st l) < nextId st;
  wf_id_inj : ∀ l1 l2, l1 ∈ reports st → l2 ∈ reports st →
                id (deref st l1) = id (deref st l2) → l1 = l2;
  wf_title_inj : ∀ l1 l2, l1 ∈ reports st → l2 ∈ reports st →
                   same_title (title (deref st l1)) (title (deref st l2)) → l1 = l2
}.

(** The object a successful PUT leaves behind, field by field. *)
Definition patch (u : Updates) (r : Report) : Report :=
  {| id := id r;
     title := default (title r) (upd_title u);
     description := default (description r) (upd_description u);
     severity := default (severity r) (upd_severity u);
     createdAt := createdAt r; updatedAt := updatedAt r;
     entries := entries r; attachments := attachments r |}.

(** Whether an update supplies a value that differs from the stored one. *)
Definition changed (u : Updates) (r : Report) : bool :=
  from_option (fun t => negb (String.eqb t (title r))) false (upd_title u)
  || from_option (fun d => negb (String.eqb d (description r))) false (upd_description u)
  || from_option (fun s => negb (Severity_eqb s (severity r))) false (upd_severity u).

(** The diff a PUT records for an update against a stored report. *)
Definition changes_of (u : Updates) (r : Report) : gmap string (string * string) :=
  let c0 : gmap string (string * string) := ∅ in
  let c1 := match upd_title u with
            | Some t => if negb (String.eqb t (title r))
                        then <["title" := (title r, t)]> c0 else c0
            | None => c0 end in
  let c2 := match upd_description u with
            | Some d => if negb (String.eqb d (description r))
                        then <["description" := (description r, d)]> c1 else c1
            | None => c1 end in
  match upd_severity u with
  | Some s => if negb (Severity_eqb s (severity r))
              then <["severity" := (Severity_str (severity r), Severity_str s)]> c2 else c2
  | None => c2
  end.

(** Repository histories: creations and deletions through [ReportStore]. *)
Inductive Op :=
| Create (t d : string) (s : Severity) (now : Date)
| Delete (i : Z).

(** Runs a history; returns the ids given to the created reports, in
    order of creation, and the final state. *)
Fixpoint run (ops : list Op) (st : State) : list Z * State :=
  match ops with
  | [] => ([], st)
  | Create t d s now :: ops' =>
      let '(newReport, st1) := ReportStore.addReport st t d s now in
      let '(ids, st2) := run ops' st1 in
      (id (deref st1 newReport) :: ids, st2)
  | Delete i :: ops' => run ops' (snd (ReportStore.deleteReport st i))
  end.

(** The audit entry a PUT pushes for an update [u] of the object at [l]. *)
Definition audit_of (req : Request) (st : State) (l : loc) (u : Updates) : AuditEntry :=
  {| audit_reportId := id (deref st l);
     audit_userId := match req_user req with Some a => user_id a | None => "unknown" end;
     audit_changes := changes_of u (deref st l);
     audit_timestamp := req_now req |}.

(** ** A worked scenario

    Two callers, a few requests and the states they lead to, used below to
    run the handlers on concrete inputs. *)

Definition dev1 : AuthPayload := mkAuth "dev1" developer.
Definition admin1 : AuthPayload := mkAuth "admin1" admin.

(** A request to [/reports] or [/reports/:id] with a JSON body. *)
Definition request (i : string) (b : option JVal) (u : AuthPayload) (now : Date)
  : Request :=
  mkRequest i "" None None None None None b (Some u) None now.

(** An upload to [/reports/:id/attachment]. *)
Definition upload (i : string) (f : UploadedFile) (u : AuthPayload) (now : Date)
  : Request :=
  mkRequest i "" None None None None None None (Some u) (Some f) now.

(** A download of [/reports/:id/attachment/:filename?token=...]. *)
Definition download (i filename : string) (token : option string) (now : Date)
  : Request :=
  mkRequest i filename None None None None token None None None now.

(** A read of [/reports/:id?include=entries&page=..&pageSize=..]. *)
Definition read_entries (i : string) (page pageSize : option string) (u : AuthPayload)
  : Request :=
  mkRequest i "" (Some "entries") None page pageSize None None (Some u) None 0.

(** A stand-in for the token codec: one token, naming report 1 and file
    ["f1"], good for fifteen minutes after time 1000. *)
Definition toy_sign (c : Claims) (ttl : Z) (now : Date) : string := "cap-1-f1".

Definition toy_verify (token : string) (now : Date) : option Claims :=
  if String.eqb token "cap-1-f1"
  then if now <? 1000 + 15 * 60 * 1000 then Some (FileClaims 1 "f1") else None
  else None.

(** One report, ["A"], severity low. *)
Definition st_one : State :=
  snd (post_report
         (request "" (Some (JObj [("title", JStr "A"); ("description", JStr "B")]))
                  dev1 100)
         initial).

(** A second report, ["C"], severity high. *)
Definition st_two : State :=
  snd (post_report
         (request "" (Some (JObj [("title", JStr "C"); ("description", JStr "D");
                                  ("severity", JStr "high")]))
                  dev1 200)
         st_one).

(** Report 1 escalated to critical by an admin. *)
Definition st_critical : State :=
  snd (put_report (request "1" (Some (JObj [("severity", JStr "critical")])) admin1 300)
                  st_two).

(** A file uploaded to report 1. *)
Definition file1 : UploadedFile := mkFile "f1" "trace.log" "text/plain" 42.

Definition st_uploaded : State :=
  snd (post_attachment toy_sign (upload "1" file1 dev1 1000) st_two).

(** ** [middleware/auth.ts] *)

(** [s.startsWith(p)] *)
Fixpoint startsWith (p s : string) : bool :=
  match p, s with
  | EmptyString, _ => true
  | String a p', String b s' => Ascii.eqb a b && startsWith p' s'
  | String _ _, EmptyString => false
  end.

(** [s.substring(n)] *)
Fixpoint substring (n : nat) (s : string) : string :=
  match n, s with
  | O, _ => s
  | S n', String _ s' => substring n' s'
  | S _, EmptyString => EmptyString
  end.

Section Auth.

Variable jwt_verify : string -> Date -> option Claims.

(** [requireAuth], given the [authorization] header and the time. [inl] is
    the response it sends; [inr decoded] is the call of [next()], with
    [req.user] built from the [id] and [role] of the decoded payload. *)
Definition requireAuth (authorization : option string) (now : Date)
  : Response + Claims :=
  match authorization with
  | Some authHeader =>
      if negb (JS.truthy_str authHeader) || negb (startsWith "Bearer " authHeader)
      then inl (mkResponse 401 (Error "Unauthorized"))
      else
        match jwt_verify (substring 7 authHeader) now with
        | Some decoded => inr decoded
        | None => inl (mkResponse 401 (Error "Unauthorized"))
        end
  | None => inl (mkResponse 401 (Error "Unauthorized"))
  end.

End Auth.

(** ** Further notions used by the properties *)

(** The fields the PUT handler diffs. *)
Definition audited_fields : list string := ["title"; "description"; "severity"].

(** An audit entry that records a real change of a report of this store:
    some field, only diffed fields, each with an old value different from
    the new one, for an id the counter has handed out. *)
Definition real_diff (st : State) (e : AuditEntry) : Prop :=
  audit_changes e ≠ ∅
  ∧ (∀ k old new, audit_changes e !! k = Some (old, new) →
                  k ∈ audited_fields ∧ old ≠ new)
  ∧ 0 < audit_reportId e < nextId st.

(** Orders on entries by creation time. *)
Definition oldest_first (a b : Entry) : Prop := entry_createdAt a ≤ entry_createdAt b.
Definition newest_first (a b : Entry) : Prop := entry_createdAt b ≤ entry_createdAt a.

(** The order a GET request asks for: ascending only for [order=asc]. *)
Definition requested_order (req : Request) : Entry -> Entry -> Prop :=
  if bool_decide (query_order req = Some "asc") then oldest_first else newest_first.

(** Report 1 of the worked scenario deleted. *)
Definition st_deleted : State := snd (ReportStore.deleteReport st_two 1).

Definition three_entries : list Entry :=
  [mkEntry 1 "dev1" "first" 30; mkEntry 2 "admin1" "second" 10;
   mkEntry 3 "dev1" "third" 20].

(** A request with the [:id] path parameter replaced. *)
Definition with_id (s : string) (req : Request) : Request :=
  {| params_id := s; params_filename := params_filename req;
     query_include := query_include req; query_order := query_order req;
     query_page := query_page req; query_pageSize := query_pageSize req;
     query_token := query_token req; req_body := req_body req;
     req_user := req_user req; req_file := req_file req; req_now := req_now req |}.

(** A string at which [parseInt] stops reading digits: empty, or starting
    with a character that is not a decimal digit. *)
Definition no_leading_digit (rest : string) : Prop :=
  match rest with
  | EmptyString => True
  | String c _ => JS.digit_val c = None
  end.

(** A store whose one report carries three entries. *)
Definition st_entries : State :=
  {| heap := {[ 1%positive := mkReport 1 "A" "B" low 100 100 three_entries [] ]};
     reports := [1%positive]; nextId := 2; auditLogs := [] |}.


(** * Properties *)

(** ** Sanity checks of the primitives *)

Example parseInt_42 : JS.parseInt "42" = Some 42.
Proof. reflexivity. Qed.

Example parseInt_signed_prefix : JS.parseInt " -7x" = Some (-7).
Proof. reflexivity. Qed.

Example parseInt_abc : JS.parseInt "abc" = None.
Proof. reflexivity. Qed.

Example toLowerCase_ex : JS.toLowerCase "Login BUG" = "login bug".
Proof. reflexivity. Qed.

(** ** References and writes *)

Lemma deref_write l f st l' :
  deref (write l f st) l' = if decide (l = l') then f (deref st l) else deref st l'.
Proof.
  unfold deref, write; simpl. rewrite lookup_insert.
  destruct (decide (l = l')); reflexivity.
Qed.

Lemma deref_write_eq l f st : deref (write l f st) l = f (deref st l).
Proof. rewrite deref_write. by destruct (decide (l = l)). Qed.

Lemma deref_write_ne l f st l' : l ≠ l' → deref (write l f st) l' = deref st l'.
Proof. intros. rewrite deref_write. by destruct (decide (l = l')). Qed.

Lemma write_write l f g st : write l f (write l g st) = write l (f ∘ g) st.
Proof.
  unfold write at 1 3. rewrite deref_write_eq. simpl.
  by rewrite insert_insert_eq.
Qed.

Lemma deref_push_audit e st l : deref (push_audit e st) l = deref st l.
Proof. reflexivity. Qed.

(** A write that keeps the id of the object does not change what
    [getReport] finds. *)
Lemma find_id_write l f st i ls :
  id (f (deref st l)) = id (deref st l) →
  List.find (fun l' => Z.eqb (id (deref (write l f st) l')) i) ls
  = List.find (fun l' => Z.eqb (id (deref st l')) i) ls.
Proof.
  intros Hid. induction ls as [|a ls IH]; simpl; [done|].
  rewrite deref_write. destruct (decide (l = a)) as [->|].
  - rewrite Hid, IH. done.
  - by rewrite IH.
Qed.

Lemma getReport_write l f st i :
  id (f (deref st l)) = id (deref st l) →
  ReportStore.getReport (write l f st) i = ReportStore.getReport st i.
Proof. intros. unfold ReportStore.getReport. simpl. by apply find_id_write. Qed.

Lemma getReport_Some st i l :
  ReportStore.getReport st i = Some l → l ∈ reports st ∧ id (deref st l) = i.
Proof.
  unfold ReportStore.getReport. intros H. apply find_some in H as [Hin Heq].
  split; [by apply list_elem_of_In | lia].
Qed.

Lemma getReport_None st i l :
  ReportStore.getReport st i = None → l ∈ reports st → id (deref st l) ≠ i.
Proof.
  unfold ReportStore.getReport. intros H Hin.
  apply list_elem_of_In in Hin. pose proof (find_none _ _ H _ Hin). simpl in *. lia.
Qed.

Lemma write_ext l f g st :
  f (deref st l) = g (deref st l) → write l f st = write l g st.
Proof. intros H. unfold write. by rewrite H. Qed.

Lemma Severity_eqb_eq a b : Severity_eqb a b = true ↔ a = b.
Proof. destruct a, b; simpl; split; intros; congruence. Qed.

Lemma Severity_eqb_refl a : Severity_eqb a a = true.
Proof. by destruct a. Qed.

(** ** The diff tracker of PUT *)

(** The three diff statements together record [changes_of] and leave the
    patched object, or leave the state alone when nothing differs. *)
Lemma diffs_spec u l st :
  diff_severity u l (diff_description u l (diff_title u l (∅, st)))
  = (changes_of u (deref st l),
     if changed u (deref st l) then write l (patch u) st else st).
Proof.
  destruct u as [t d s]. unfold diff_title, diff_description, diff_severity,
    changes_of, changed. simpl.
  destruct t as [t|], d as [d|], s as [s|]; simpl;
    repeat match goal with
      | |- context [deref (write _ _ _) _] => rewrite !deref_write_eq; simpl
      | |- context [String.eqb ?a ?b] =>
          let E := fresh "E" in
          destruct (String.eqb a b) eqn:E; simpl;
          [apply String.eqb_eq in E|]
      | |- context [Severity_eqb ?a ?b] =>
          let E := fresh "E" in
          destruct (Severity_eqb a b) eqn:E; simpl;
          [apply Severity_eqb_eq in E|]
      end;
    rewrite ?write_write; try reflexivity;
    f_equal; apply write_ext; unfold patch, set_title, set_description, set_severity;
    simpl; destruct (deref st l); simpl in *; subst; reflexivity.
Qed.

Lemma changes_of_size u r : Nat.ltb 0 (size (changes_of u r)) = changed u r.
Proof.
  destruct u as [t d s]. unfold changes_of, changed. simpl.
  destruct t as [t|], d as [d|], s as [s|]; simpl;
    repeat match goal with
      | |- context [String.eqb ?a ?b] => destruct (String.eqb a b); simpl
      | |- context [Severity_eqb ?a ?b] => destruct (Severity_eqb a b); simpl
      end; try reflexivity.
Qed.

(** ** Validation *)

Lemma UpdateReportSchema_object b u :
  UpdateReportSchema b = Some u → ∃ fields, b = Some (JObj fields).
Proof.
  unfold UpdateReportSchema. destruct b as [[| | | | |fields]|]; try discriminate.
  eauto.
Qed.

(** A payload that passes the schema and supplies a field is not empty. *)
Lemma UpdateReportSchema_supplied b u :
  UpdateReportSchema b = Some u →
  upd_title u ≠ None ∨ upd_description u ≠ None ∨ upd_severity u ≠ None →
  truthy_body b = true ∧ from_option keys_length O b ≠ O.
Proof.
  intros H Hsup. destruct (UpdateReportSchema_object _ _ H) as [fields ->].
  split; [done|]. simpl. destruct fields as [|kv fields]; [|done].
  simpl in H. injection H as <-. simpl in Hsup. destruct Hsup as [?|[?|?]]; done.
Qed.

(** ** What PUT does once the checks have passed *)

Lemma put_report_pass req st i u l :
  JS.parseInt (params_id req) = Some i →
  truthy_body (req_body req) = true →
  from_option keys_length O (req_body req) ≠ O →
  UpdateReportSchema (req_body req) = Some u →
  ReportStore.getReport st i = Some l →
  title_taken st u i = false →
  escalation_denied u req = false →
  put_report req st =
    if changed u (deref st l) then
      (mkResponse 200
         (ReportSummary (summary (set_updatedAt (req_now req) (patch u (deref st l))))),
       push_audit (audit_of req st l u)
                  (write l (set_updatedAt (req_now req) ∘ patch u) st))
    else (mkResponse 200 (ReportSummary (summary (deref st l))), st).
Proof.
  intros Hid Htr Hkeys Hu Hget Htaken Hesc. unfold put_report.
  rewrite Hid, Htr, Hu, Hget, Htaken, Hesc.
  destruct (Nat.eqb_spec (from_option keys_length O (req_body req)) 0); [done|].
  cbn [negb orb]. rewrite diffs_spec, changes_of_size.
  destruct (changed u (deref st l)); [|done].
  rewrite write_write. rewrite !deref_push_audit, !deref_write_eq. reflexivity.
Qed.

Lemma string_min1_truthy v s : string_min1 v = Some s → JS.truthy_str s = true.
Proof.
  destruct v; simpl; try discriminate.
  destruct (JS.truthy_str s0) eqn:E; [|discriminate]. by intros [= <-].
Qed.

Lemma UpdateReportSchema_title b u t :
  UpdateReportSchema b = Some u → upd_title u = Some t → JS.truthy_str t = true.
Proof.
  intros H Ht. destruct (UpdateReportSchema_object _ _ H) as [fields ->].
  simpl in H. destruct (strict_keys fields); [|discriminate].
  destruct (field "title" fields) as [v|]; simpl in H.
  - destruct (string_min1 v) as [s|] eqn:Es; simpl in H; [|discriminate].
    destruct (optional string_min1 (field "description" fields)); simpl in H; [|discriminate].
    destruct (optional SeverityEnum (field "severity" fields)); simpl in H; [|discriminate].
    injection H as <-. simpl in Ht. injection Ht as <-. eauto using string_min1_truthy.
  - destruct (optional string_min1 (field "description" fields)); simpl in H; [|discriminate].
    destruct (optional SeverityEnum (field "severity" fields)); simpl in H; [|discriminate].
    injection H as <-. discriminate.
Qed.

(** ** [titleExists] *)

Lemma existsb_false_elem {A} (f : A → bool) (l : list A) (x : A) :
  existsb f l = false → x ∈ l → f x = false.
Proof.
  intros H Hin. apply not_true_iff_false. intros Hx.
  apply not_true_iff_false in H. apply H, existsb_exists.
  exists x. split; [by apply list_elem_of_In | done].
Qed.

Lemma titleExists_false st t ex :
  ReportStore.titleExists st t ex = false ↔
  ∀ l, l ∈ reports st → same_title (title (deref st l)) t →
       ∃ e, ex = Some e ∧ e ≠ 0 ∧ id (deref st l) = e.
Proof.
  unfold ReportStore.titleExists, same_title. split.
  - intros H l Hin Hsame.
    pose proof (existsb_false_elem _ _ _ H Hin) as Hl.
    simpl in Hl. rewrite Hsame, String.eqb_refl in Hl. simpl in Hl.
    destruct ex as [e|]; [|done].
    destruct (Z.eqb e 0) eqn:E0; [done|]. apply negb_false_iff in Hl.
    exists e. repeat split; lia.
  - intros H. rewrite <- not_true_iff_false, existsb_exists.
    intros (l & Hin & Hl). apply list_elem_of_In in Hin. simpl in Hl.
    apply andb_prop in Hl as [Ht Hex]. apply String.eqb_eq in Ht.
    destruct (H l Hin Ht) as (e & -> & Hne & He).
    destruct (Z.eqb e 0) eqn:E0; [lia|].
    apply negb_true_iff in Hex. lia.
Qed.

Lemma titleExists_true st t ex :
  ReportStore.titleExists st t ex = true ↔
  ∃ l, l ∈ reports st ∧ same_title (title (deref st l)) t ∧
       ∀ e, ex = Some e → e = 0 ∨ id (deref st l) ≠ e.
Proof.
  unfold ReportStore.titleExists, same_title. rewrite existsb_exists. split.
  - intros (l & Hin & Hl). apply list_elem_of_In in Hin.
    apply andb_prop in Hl as [Ht Hex]. apply String.eqb_eq in Ht.
    exists l. repeat split; [done..|]. intros e ->.
    destruct (Z.eqb e 0) eqn:E0; [left; lia|right].
    apply negb_true_iff in Hex. lia.
  - intros (l & Hin & Ht & Hex). exists l. split; [by apply list_elem_of_In|].
    simpl. rewrite Ht, String.eqb_refl. simpl. destruct ex as [e|]; [|done].
    destruct (Z.eqb e 0) eqn:E0; [done|].
    apply negb_true_iff. destruct (Hex e eq_refl); lia.
Qed.

(** ** The store invariant is kept *)

Lemma wf_initial : wf initial.
Proof.
  split; simpl; try (intros; exfalso; eapply not_elem_of_nil; eassumption).
  - lia.
  - constructor.
Qed.

Lemma wf_push_audit e st : wf st → wf (push_audit e st).
Proof. intros []. by split. Qed.

Lemma wf_write l f st :
  wf st → l ∈ reports st →
  id (f (deref st l)) = id (deref st l) →
  (∀ l', l' ∈ reports st → l' ≠ l →
         ¬ same_title (title (deref st l')) (title (f (deref st l)))) →
  wf (write l f st).
Proof.
  intros [Hx Ha Hn Hr Hi Ht] Hl Hid Htitle. split; simpl.
  - done.
  - intros l' Hl'. rewrite dom_insert_L. apply elem_of_union. right. by apply Ha.
  - done.
  - intros l' Hl'. rewrite deref_write. destruct (decide (l = l')) as [<-|].
    + rewrite Hid. auto.
    + auto.
  - intros l1 l2 H1 H2. rewrite !deref_write.
    destruct (decide (l = l1)) as [<-|], (decide (l = l2)) as [<-|];
      rewrite ?Hid; auto.
  - intros l1 l2 H1 H2. rewrite !deref_write.
    destruct (decide (l = l1)) as [<-|N1], (decide (l = l2)) as [<-|N2]; auto.
    + intros Hs. exfalso. apply (Htitle l2 H2); [done|]. by symmetry.
    + intros Hs. exfalso. by apply (Htitle l1 H1).
Qed.

Lemma addReport_fresh st t d s now :
  fst (ReportStore.addReport st t d s now) ∉ dom (heap st).
Proof. simpl. apply is_fresh. Qed.

Lemma deref_addReport_new st t d s now :
  deref (snd (ReportStore.addReport st t d s now))
        (fst (ReportStore.addReport st t d s now)) =
    {| id := nextId st; title := t; description := d; severity := s;
       createdAt := now; updatedAt := now; entries := []; attachments := [] |}.
Proof. simpl. unfold deref. simpl. by rewrite lookup_insert_eq. Qed.

Lemma deref_addReport_old st t d s now l :
  l ∈ dom (heap st) →
  deref (snd (ReportStore.addReport st t d s now)) l = deref st l.
Proof.
  intros Hl. simpl. unfold deref. simpl. rewrite lookup_insert_ne; [done|].
  intros <-. by apply (is_fresh (dom (heap st))).
Qed.

Lemma wf_addReport st t d s now :
  wf st → ReportStore.titleExists st t None = false →
  wf (snd (ReportStore.addReport st t d s now)).
Proof.
  intros Hwf Hfree. pose proof Hwf as [Hx Ha Hn Hr Hi Ht].
  pose proof (deref_addReport_new st t d s now) as Hnew.
  pose proof (deref_addReport_old st t d s now) as Hold.
  pose proof (addReport_fresh st t d s now) as Hfresh.
  remember (ReportStore.addReport st t d s now) as p eqn:E.
  assert (Hrep : reports (snd p) = (reports st ++ [fst p])%list) by (by subst p).
  assert (Hnext : nextId (snd p) = nextId st + 1) by (by subst p).
  assert (Hdom : dom (heap (snd p)) = {[fst p]} ∪ dom (heap st)).
  { subst p. simpl. by rewrite dom_insert_L. }
  clear E. destruct p as [l st']. simpl in *.
  assert (Hnotin : l ∉ reports st) by (intros Hin; by apply Hfresh, Ha).
  rewrite titleExists_false in Hfree.
  split.
  - lia.
  - intros l'. rewrite Hrep, Hdom, elem_of_app, list_elem_of_singleton.
    intros [?| ->]; apply elem_of_union;
      [right; by apply Ha | left; by apply elem_of_singleton].
  - rewrite Hrep. apply NoDup_app. repeat split; [done| |apply NoDup_singleton].
    intros x Hx' Hx''. apply list_elem_of_singleton in Hx''. by subst.
  - intros l'. rewrite Hrep, Hnext, elem_of_app, list_elem_of_singleton.
    intros [Hin| ->].
    + rewrite Hold by auto. specialize (Hr l' Hin). lia.
    + rewrite Hnew. simpl. lia.
  - intros l1 l2. rewrite Hrep, !elem_of_app, !list_elem_of_singleton.
    intros [H1| ->] [H2| ->]; rewrite ?Hnew, ?Hold by auto; simpl; auto.
    + intros He. specialize (Hr l1 H1). lia.
    + intros He. specialize (Hr l2 H2). lia.
  - intros l1 l2. rewrite Hrep, !elem_of_app, !list_elem_of_singleton.
    intros [H1| ->] [H2| ->]; rewrite ?Hnew, ?Hold by auto; simpl; auto.
    + intros Hs. destruct (Hfree l1 H1 Hs) as (? & ? & _). done.
    + intros Hs. symmetry in Hs. destruct (Hfree l2 H2 Hs) as (? & ? & _). done.
Qed.

Lemma splice1_sublist {A} (i : nat) (ls : list A) :
  ReportStore.splice1 i ls `sublist_of` ls.
Proof.
  unfold ReportStore.splice1. rewrite <- (take_drop i ls) at 3.
  apply sublist_app; [done|].
  replace (drop (S i) ls) with (drop 1 (drop i ls))
    by (rewrite drop_drop; f_equal; lia).
  apply sublist_drop.
Qed.

Lemma deleteReport_state st i :
  ∃ ls, ls `sublist_of` reports st ∧
        snd (ReportStore.deleteReport st i) =
          {| heap := heap st; reports := ls; nextId := nextId st;
             auditLogs := auditLogs st |}.
Proof.
  unfold ReportStore.deleteReport.
  destruct (ReportStore.findIndex _ _ _) as [index|]; simpl.
  - eexists. split; [apply splice1_sublist | done].
  - exists (reports st). split; [done | by destruct st].
Qed.

Lemma wf_deleteReport st i : wf st → wf (snd (ReportStore.deleteReport st i)).
Proof.
  intros [Hx Ha Hn Hr Hi Ht].
  destruct (deleteReport_state st i) as (ls & Hsub & ->).
  pose proof (sublist_subseteq _ _ Hsub) as Hincl.
  split; simpl; try done.
  - intros l Hl. apply Ha, Hincl, Hl.
  - by eapply sublist_NoDup.
  - intros l Hl. apply (Hr l), Hincl, Hl.
  - intros l1 l2 H1 H2. apply Hi; by apply Hincl.
  - intros l1 l2 H1 H2. apply Ht; by apply Hincl.
Qed.

(** Every PUT either leaves the state alone or passes all checks and
    changes a field. *)
Lemma put_report_cases req st :
  snd (put_report req st) = st ∨
  ∃ i u l,
    JS.parseInt (params_id req) = Some i ∧
    UpdateReportSchema (req_body req) = Some u ∧
    ReportStore.getReport st i = Some l ∧
    title_taken st u i = false ∧
    escalation_denied u req = false ∧
    changed u (deref st l) = true ∧
    put_report req st =
      (mkResponse 200
         (ReportSummary (summary (set_updatedAt (req_now req) (patch u (deref st l))))),
       push_audit (audit_of req st l u)
                  (write l (set_updatedAt (req_now req) ∘ patch u) st)).
Proof.
  destruct (JS.parseInt (params_id req)) as [i|] eqn:Hid;
    [|left; unfold put_report; by rewrite Hid].
  destruct (truthy_body (req_body req)) eqn:Htr;
    [|left; unfold put_report; by rewrite Hid, Htr].
  destruct (Nat.eqb (from_option keys_length O (req_body req)) 0) eqn:Hk;
    [left; unfold put_report; by rewrite Hid, Htr, Hk|].
  destruct (UpdateReportSchema (req_body req)) as [u|] eqn:Hu;
    [|left; unfold put_report; by rewrite Hid, Htr, Hk, Hu].
  destruct (ReportStore.getReport st i) as [l|] eqn:Hget;
    [|left; unfold put_report; by rewrite Hid, Htr, Hk, Hu, Hget].
  destruct (title_taken st u i) eqn:Htaken;
    [left; unfold put_report; by rewrite Hid, Htr, Hk, Hu, Hget, Htaken|].
  destruct (escalation_denied u req) eqn:Hesc;
    [left; unfold put_report; by rewrite Hid, Htr, Hk, Hu, Hget, Htaken, Hesc|].
  apply Nat.eqb_neq in Hk.
  pose proof (put_report_pass req st i u l Hid Htr Hk Hu Hget Htaken Hesc) as Hpass.
  destruct (changed u (deref st l)) eqn:Hch.
  - right. exists i, u, l. by repeat split.
  - left. by rewrite Hpass.
Qed.

(** A title that passed the uniqueness check of PUT collides with no other
    stored report. *)
Lemma title_taken_false st b u i l l' :
  wf st → UpdateReportSchema b = Some u →
  ReportStore.getReport st i = Some l → title_taken st u i = false →
  l' ∈ reports st → l' ≠ l →
  ¬ same_title (title (deref st l')) (title (patch u (deref st l))).
Proof.
  intros Hwf Hu Hget Htaken Hl' Hne Hsame.
  apply getReport_Some in Hget as [Hl Hid].
  destruct (upd_title u) as [t|] eqn:Ht; unfold patch in Hsame; simpl in Hsame;
    rewrite Ht in Hsame; simpl in Hsame.
  - unfold title_taken in Htaken. rewrite Ht in Htaken.
    rewrite (UpdateReportSchema_title _ _ _ Hu Ht) in Htaken. simpl in Htaken.
    rewrite titleExists_false in Htaken.
    destruct (Htaken l' Hl' Hsame) as (e & [= <-] & _ & He).
    apply Hne, (wf_id_inj _ Hwf); [done..|]. congruence.
  - apply Hne, (wf_title_inj _ Hwf); done.
Qed.

Lemma wf_put_report req st : wf st → wf (snd (put_report req st)).
Proof.
  intros Hwf.
  destruct (put_report_cases req st)
    as [->|(i & u & l & Hid & Hu & Hget & Htaken & Hesc & Hch & ->)]; [done|].
  simpl. apply wf_push_audit, wf_write; [done| |done|].
  - by apply getReport_Some in Hget as [? _].
  - intros l' Hl' Hne. simpl. eapply title_taken_false; eauto.
Qed.

Lemma wf_post_report req st : wf st → wf (snd (post_report req st)).
Proof.
  intros Hwf. unfold post_report.
  destruct (NewReportSchema (req_body req)) as [data|]; [|done].
  destruct (ReportStore.titleExists st (new_title data) None) eqn:Hfree; [done|].
  by apply (wf_addReport st (new_title data) (new_description data)
              (new_severity data) (req_now req)) in Hfree.
Qed.

Lemma wf_post_attachment jwt_sign req st :
  wf st → wf (snd (post_attachment jwt_sign req st)).
Proof.
  intros Hwf. unfold post_attachment.
  destruct (JS.parseInt (params_id req)) as [i|]; [|done].
  destruct (ReportStore.getReport st i) as [l|] eqn:Hget; [|done].
  destruct (req_file req) as [f|]; [|done].
  unfold ReportStore.addAttachment. rewrite Hget. simpl.
  rewrite write_write. apply getReport_Some in Hget as [Hl _].
  apply wf_write; [done..|]. simpl.
  intros l' Hl' Hne Hsame. apply Hne. by apply (wf_title_inj _ Hwf).
Qed.

Lemma wf_step st st' : step st st' → wf st → wf st'.
Proof.
  destruct 1; eauto using wf_post_report, wf_put_report, wf_post_attachment,
    wf_deleteReport.
Qed.

Lemma reachable_wf st : reachable st → wf st.
Proof.
  induction 1; eauto using wf_initial, wf_step.
Qed.

(** ** Id allocation *)

Lemma nextId_deleteReport st i :
  nextId (snd (ReportStore.deleteReport st i)) = nextId st.
Proof. by destruct (deleteReport_state st i) as (ls & _ & ->). Qed.

Lemma run_Create t d s now ops st :
  run (Create t d s now :: ops) st =
    (nextId st :: fst (run ops (snd (ReportStore.addReport st t d s now))),
     snd (run ops (snd (ReportStore.addReport st t d s now)))).
Proof.
  pose proof (deref_addReport_new st t d s now) as Hnew.
  cbn [run]. destruct (ReportStore.addReport st t d s now) as [l st1].
  simpl in Hnew. rewrite Hnew. simpl. by destruct (run ops st1).
Qed.

(** The ids a history hands out are the consecutive values of the
    counter, whatever is deleted in between. *)
Lemma run_ids ops : ∀ st,
  fst (run ops st) = seqZ (nextId st) (Z.of_nat (length (fst (run ops st)))) ∧
  nextId (snd (run ops st)) = nextId st + Z.of_nat (length (fst (run ops st))).
Proof.
  induction ops as [|[t d s now|i] ops IH]; intros st.
  - simpl. split; [done | lia].
  - rewrite run_Create.
    set (st1 := snd (ReportStore.addReport st t d s now)).
    destruct (IH st1) as [Hids Hnext].
    assert (Hn1 : nextId st1 = nextId st + 1) by reflexivity.
    rewrite Hn1 in Hids, Hnext. cbn [fst snd length]. split.
    + rewrite Nat2Z.inj_succ, seqZ_cons by lia. f_equal.
      rewrite Z.pred_succ. exact Hids.
    + rewrite Hnext. lia.
  - cbn [run]. destruct (IH (snd (ReportStore.deleteReport st i))) as [Hids Hnext].
    rewrite nextId_deleteReport in Hids, Hnext. done.
Qed.

Lemma seqZ_sorted n : ∀ m, StronglySorted Z.lt (seqZ m (Z.of_nat n)).
Proof.
  induction n as [|n IH]; intros m.
  - constructor.
  - rewrite Nat2Z.inj_succ, seqZ_cons by lia. rewrite Z.pred_succ.
    constructor; [apply IH|]. apply Forall_forall. intros x Hx.
    apply elem_of_seqZ in Hx. lia.
Qed.

(** C6. For every history of creations and deletions on the repository,
    from any state, the ids given to the created reports are strictly
    increasing in order of creation, none of them is below the counter the
    history started with (so each exceeds every id handed out before), no
    id occurs twice, and the counter ends above all of them: a deletion
    never makes an id available again. *)
Theorem C6_ids_strictly_increasing (ops : list Op) (st : State) :
  StronglySorted Z.lt (fst (run ops st)) ∧
  NoDup (fst (run ops st)) ∧
  Forall (fun i => nextId st ≤ i < nextId (snd (run ops st))) (fst (run ops st)).
Proof.
  destruct (run_ids ops st) as [Hids Hnext].
  set (ids := fst (run ops st)) in *. repeat split.
  - rewrite Hids. apply seqZ_sorted.
  - rewrite Hids. apply NoDup_seqZ.
  - rewrite Hnext. apply Forall_forall. intros x Hx. rewrite Hids in Hx.
    apply elem_of_seqZ in Hx. lia.
Qed.

(** Stored ids stay below the counter, so a fresh id differs from every
    stored one. *)
Lemma stored_ids_below_counter st r :
  reachable st → r ∈ stored st → 0 < id r < nextId st.
Proof.
  intros Hr Hin. apply reachable_wf in Hr. unfold stored in Hin.
  apply list_elem_of_fmap in Hin as (l & -> & Hl). by apply (wf_id_range _ Hr).
Qed.

Example ids_after_delete :
  fst (run [Create "A" "a" low 1; Delete 1; Create "B" "b" low 2;
            Delete 2; Create "C" "c" high 3] initial) = [1; 2; 3].
Proof. reflexivity. Qed.

(** ** The empty update body *)

(** C10. An update whose body has no keys is answered 400 "No update data
    provided" with the state untouched, whatever the state is: the check
    comes before the lookup of the report, the title check and the role
    rule, so it also answers for ids that do not exist. *)
Theorem C10_empty_body_rejected_first (req : Request) (st : State) (i : Z)
  (Hid : JS.parseInt (params_id req) = Some i)
  (Hempty : from_option keys_length O (req_body req) = O) :
  put_report req st = (mkResponse 400 (Error "No update data provided"), st).
Proof.
  unfold put_report. rewrite Hid, Hempty. simpl.
  by rewrite orb_true_r.
Qed.

Lemma C10_empty_body_rejected_first_witness :
  put_report (request "7" (Some (JObj [])) dev1 50) initial
  = (mkResponse 400 (Error "No update data provided"), initial).
Proof.
  apply (C10_empty_body_rejected_first
           (request "7" (Some (JObj [])) dev1 50) initial 7); reflexivity.
Defined.

(** ** The signed download *)

Lemma truthy_str_true s : s ≠ "" → JS.truthy_str s = true.
Proof. by destruct s. Qed.

(** C4. A download request with a well-formed id, a file name and a token
    is checked in this order, for every token codec: a token the codec
    rejects is answered 401; a token the codec accepts but whose claims
    name another report or another file (or are a session's claims) is
    answered 403; a token for exactly this report and file is answered 404
    when the report or the attachment is not in the repository. The first
    two answers are given without consulting the repository. *)
Theorem C4_download_checks_in_order
    (jwt_verify : string → Date → option Claims)
    (req : Request) (st : State) (i : Z) (token : string)
    (Hid : JS.parseInt (params_id req) = Some i)
    (Hname : params_filename req ≠ "")
    (Htoken : query_token req = Some token)
    (Hpresent : token ≠ "") :
  (jwt_verify token (req_now req) = None →
   get_attachment jwt_verify req st
   = mkResponse 401 (Error "Unauthorized or expired token")) ∧
  (∀ reportId file,
     jwt_verify token (req_now req) = Some (FileClaims reportId file) →
     reportId ≠ i ∨ file ≠ params_filename req →
     get_attachment jwt_verify req st
     = mkResponse 403 (Error "Invalid token for this file")) ∧
  (∀ u,
     jwt_verify token (req_now req) = Some (SessionClaims u) →
     get_attachment jwt_verify req st
     = mkResponse 403 (Error "Invalid token for this file")) ∧
  (jwt_verify token (req_now req) = Some (FileClaims i (params_filename req)) →
   ReportStore.getReport st i = None ∨
   (∃ l, ReportStore.getReport st i = Some l ∧
         ∀ a, a ∈ attachments (deref st l) → att_filename a ≠ params_filename req) →
   get_attachment jwt_verify req st = mkResponse 404 (Error "File not found")) ∧
  (jwt_verify token (req_now req) ≠ Some (FileClaims i (params_filename req)) →
   ∀ st', get_attachment jwt_verify req st' = get_attachment jwt_verify req st).
Proof.
  unfold get_attachment.
  rewrite Hid, Htoken, !(truthy_str_true _ Hname), (truthy_str_true _ Hpresent).
  repeat split.
  - by intros ->.
  - intros reportId file -> Hdiff. simpl.
    destruct Hdiff as [Hd|Hd].
    + apply Z.eqb_neq in Hd. by rewrite Hd.
    + apply String.eqb_neq in Hd. rewrite Hd. simpl. by rewrite orb_true_r.
  - by intros u ->.
  - intros -> Habsent. simpl. rewrite Z.eqb_refl, String.eqb_refl. simpl.
    destruct Habsent as [->|(l & -> & Hnone)]; [done|].
    destruct (List.find _ _) as [a|] eqn:Hfind; [|done].
    apply find_some in Hfind as [Hin Heq]. apply String.eqb_eq in Heq.
    exfalso. apply (Hnone a); [by apply list_elem_of_In | done].
  - intros Hother st'.
    destruct (jwt_verify token (req_now req)) as [[u|reportId file]|]; [done| |done].
    simpl. destruct (Z.eqb_spec reportId i) as [->|]; [|done].
    destruct (String.eqb_spec file (params_filename req)) as [->|]; [|done].
    done.
Qed.

Lemma C4_download_checks_in_order_witness :
  get_attachment toy_verify (download "1" "f1" (Some "cap-1-f1") 2000000) st_uploaded
  = mkResponse 401 (Error "Unauthorized or expired token")
  ∧ get_attachment toy_verify (download "1" "f2" (Some "cap-1-f1") 2000) st_uploaded
    = mkResponse 403 (Error "Invalid token for this file")
  ∧ get_attachment toy_verify (download "2" "f1" (Some "cap-1-f1") 2000) st_uploaded
    = mkResponse 403 (Error "Invalid token for this file")
  ∧ get_attachment toy_verify (download "1" "f1" (Some "cap-1-f1") 2000) st_two
    = mkResponse 404 (Error "File not found").
Proof.
  split; [|split; [|split]].
  - destruct (C4_download_checks_in_order toy_verify
                (download "1" "f1" (Some "cap-1-f1") 2000000) st_uploaded 1 "cap-1-f1"
                eq_refl ltac:(discriminate) eq_refl ltac:(discriminate))
      as (H & _).
    apply H. reflexivity.
  - destruct (C4_download_checks_in_order toy_verify
                (download "1" "f2" (Some "cap-1-f1") 2000) st_uploaded 1 "cap-1-f1"
                eq_refl ltac:(discriminate) eq_refl ltac:(discriminate))
      as (_ & H & _).
    apply (H 1 "f1"); [reflexivity | right; discriminate].
  - destruct (C4_download_checks_in_order toy_verify
                (download "2" "f1" (Some "cap-1-f1") 2000) st_uploaded 2 "cap-1-f1"
                eq_refl ltac:(discriminate) eq_refl ltac:(discriminate))
      as (_ & H & _).
    apply (H 1 "f1"); [reflexivity | left; discriminate].
  - destruct (C4_download_checks_in_order toy_verify
                (download "1" "f1" (Some "cap-1-f1") 2000) st_two 1 "cap-1-f1"
                eq_refl ltac:(discriminate) eq_refl ltac:(discriminate))
      as (_ & _ & _ & H & _).
    apply H; [reflexivity|].
    right. exists 1%positive. split; [reflexivity|].
    intros a Ha. vm_compute in Ha. by apply elem_of_nil in Ha.
Defined.

(** ** Title uniqueness *)

Lemma wf_unique_titles st : wf st → unique_titles st.
Proof.
  intros Hwf i j r1 r2 H1 H2 Hsame. unfold stored in *.
  apply list_lookup_fmap_Some in H1 as (l1 & -> & Hl1).
  apply list_lookup_fmap_Some in H2 as (l2 & -> & Hl2).
  assert (l1 = l2) as <-.
  { apply (wf_title_inj _ Hwf); [by eapply list_elem_of_lookup_2..|done]. }
  by eapply NoDup_lookup; [apply (wf_nodup _ Hwf)|..].
Qed.

Lemma post_report_conflict req st data l :
  NewReportSchema (req_body req) = Some data →
  l ∈ reports st → same_title (title (deref st l)) (new_title data) →
  post_report req st
  = (mkResponse 409 (Error "A report with this title already exists"), st).
Proof.
  intros Hdata Hl Hsame. unfold post_report. rewrite Hdata.
  assert (ReportStore.titleExists st (new_title data) None = true) as ->; [|done].
  apply titleExists_true. exists l. by repeat split.
Qed.

Lemma put_report_conflict req st i u t l l' :
  wf st →
  JS.parseInt (params_id req) = Some i →
  UpdateReportSchema (req_body req) = Some u →
  upd_title u = Some t →
  ReportStore.getReport st i = Some l →
  l' ∈ reports st → l' ≠ l → same_title (title (deref st l')) t →
  put_report req st
  = (mkResponse 409 (Error "Another report with this title already exists"), st).
Proof.
  intros Hwf Hid Hu Ht Hget Hl' Hne Hsame.
  destruct (UpdateReportSchema_supplied _ _ Hu) as [Htr Hk];
    [left; by rewrite Ht|].
  apply Nat.eqb_neq in Hk.
  unfold put_report. rewrite Hid, Htr, Hk, Hu, Hget. cbn [negb orb].
  assert (title_taken st u i = true) as ->; [|done].
  unfold title_taken. rewrite Ht, (UpdateReportSchema_title _ _ _ Hu Ht).
  cbn [andb]. apply titleExists_true. exists l'. repeat split; [done..|].
  intros e [= <-]. right. intros Heq.
  apply getReport_Some in Hget as [Hl Hidl].
  apply Hne, (wf_id_inj _ Hwf); [done..|]. congruence.
Qed.

(** C7. In every reachable state no two stored reports have
    case-insensitively equal titles; a valid create whose title equals,
    case-insensitively, that of a stored report is answered 409 and
    changes nothing; and a valid update of an existing report whose new
    title equals, case-insensitively, that of another stored report is
    answered 409 and changes nothing. *)
Theorem C7_titles_case_insensitively_unique (st : State) (Hreach : reachable st) :
  unique_titles st ∧
  (∀ req data l,
     NewReportSchema (req_body req) = Some data →
     l ∈ reports st → same_title (title (deref st l)) (new_title data) →
     post_report req st
     = (mkResponse 409 (Error "A report with this title already exists"), st)) ∧
  (∀ req i u t l l',
     JS.parseInt (params_id req) = Some i →
     UpdateReportSchema (req_body req) = Some u →
     upd_title u = Some t →
     ReportStore.getReport st i = Some l →
     l' ∈ reports st → l' ≠ l → same_title (title (deref st l')) t →
     put_report req st
     = (mkResponse 409 (Error "Another report with this title already exists"), st)).
Proof.
  pose proof (reachable_wf _ Hreach) as Hwf. repeat split.
  - by apply wf_unique_titles.
  - intros. by eapply post_report_conflict.
  - intros. by eapply put_report_conflict.
Qed.

Lemma reachable_st_one : reachable st_one.
Proof. eapply reachable_step; [apply reachable_initial | apply step_post_report]. Defined.

Lemma reachable_st_two : reachable st_two.
Proof. eapply reachable_step; [apply reachable_st_one | apply step_post_report]. Defined.

Lemma reachable_st_critical : reachable st_critical.
Proof. eapply reachable_step; [apply reachable_st_two | apply step_put_report]. Defined.

Lemma reachable_st_uploaded : reachable st_uploaded.
Proof.
  eapply reachable_step; [apply reachable_st_two | apply step_post_attachment].
Defined.

Lemma C7_titles_case_insensitively_unique_witness :
  unique_titles st_two
  ∧ post_report
      (request "" (Some (JObj [("title", JStr "a"); ("description", JStr "x")])) dev1 300)
      st_two
    = (mkResponse 409 (Error "A report with this title already exists"), st_two)
  ∧ put_report (request "1" (Some (JObj [("title", JStr "c")])) admin1 300) st_two
    = (mkResponse 409 (Error "Another report with this title already exists"), st_two).
Proof.
  destruct (C7_titles_case_insensitively_unique st_two reachable_st_two)
    as (Huniq & Hpost & Hput).
  split; [exact Huniq|split].
  - apply (Hpost _ (mkNewReport "a" "x" low) 1%positive); [reflexivity| |reflexivity].
    vm_compute. apply list_elem_of_here.
  - apply (Hput _ 1 (mkUpdates (Some "c") None None) "c" 1%positive 2%positive);
      try reflexivity; [|discriminate].
    vm_compute. apply list_elem_of_further, list_elem_of_here.
Defined.

(** ** The severity-escalation rule *)

Lemma put_report_denied req st i u l :
  JS.parseInt (params_id req) = Some i →
  UpdateReportSchema (req_body req) = Some u →
  ReportStore.getReport st i = Some l →
  title_taken st u i = false →
  escalation_denied u req = true →
  put_report req st
  = (mkResponse 403 (Error "Only admins can escalate severity to critical"), st).
Proof.
  intros Hid Hu Hget Htaken Hesc.
  destruct (UpdateReportSchema_supplied _ _ Hu) as [Htr Hk].
  { right; right. unfold escalation_denied in Hesc.
    by destruct (upd_severity u). }
  apply Nat.eqb_neq in Hk.
  unfold put_report. by rewrite Hid, Htr, Hk, Hu, Hget, Htaken, Hesc.
Qed.

Lemma escalation_denied_developer u req a :
  upd_severity u = Some critical → user_role a = developer →
  escalation_denied u (as_user a req) = true.
Proof. unfold escalation_denied. simpl. by intros -> ->. Qed.

Lemma escalation_denied_admin u req a :
  user_role a = admin → escalation_denied u (as_user a req) = false.
Proof.
  unfold escalation_denied. simpl. intros ->.
  by destruct (upd_severity u) as [[]|].
Qed.

Lemma changes_of_severity u r s :
  upd_severity u = Some s → s ≠ severity r →
  changes_of u r !! "severity" = Some (Severity_str (severity r), Severity_str s).
Proof.
  intros Hs Hne. unfold changes_of. rewrite Hs.
  destruct (Severity_eqb s (severity r)) eqn:E;
    [by apply Severity_eqb_eq in E|].
  simpl. by rewrite lookup_insert_eq.
Qed.

Lemma changes_of_only_severity u r s :
  upd_severity u = Some s → s ≠ severity r →
  (∀ t, upd_title u = Some t → t = title r) →
  (∀ d, upd_description u = Some d → d = description r) →
  changes_of u r = {[ "severity" := (Severity_str (severity r), Severity_str s) ]}.
Proof.
  intros Hs Hne Ht Hd. unfold changes_of. rewrite Hs.
  destruct (Severity_eqb s (severity r)) eqn:E;
    [by apply Severity_eqb_eq in E|].
  destruct (upd_title u) as [t|]; [rewrite (Ht t eq_refl), String.eqb_refl|];
    (destruct (upd_description u) as [d|];
       [rewrite (Hd d eq_refl), String.eqb_refl|]); simpl;
    by rewrite insert_empty.
Qed.

Lemma changed_severity u r s :
  upd_severity u = Some s → s ≠ severity r → changed u r = true.
Proof.
  intros Hs Hne. unfold changed. rewrite Hs. simpl.
  destruct (Severity_eqb s (severity r)) eqn:E;
    [by apply Severity_eqb_eq in E|].
  by rewrite !orb_true_r.
Qed.

(** C1, as the code has it. For an existing report whose stored severity
    is not critical and a payload that passes the schema, carries severity
    critical and whose title, if any, is not taken by another report:
    a developer is answered 403 with the rule's own message and nothing
    changes; the same request from an admin is answered 200 and appends
    exactly one audit entry, for this report and this admin, whose changes
    map holds the severity field with the prior severity as old value and
    critical as new value -- and holds only that field when the payload
    changes no other field. *)
Theorem C1_escalation_to_critical_needs_admin
    (req : Request) (st : State) (i : Z) (u : Updates) (l : loc)
    (dev adm : AuthPayload)
    (Hid : JS.parseInt (params_id req) = Some i)
    (Hu : UpdateReportSchema (req_body req) = Some u)
    (Hsev : upd_severity u = Some critical)
    (Hget : ReportStore.getReport st i = Some l)
    (Hcur : severity (deref st l) ≠ critical)
    (Hfree : title_taken st u i = false)
    (Hdev : user_role dev = developer)
    (Hadm : user_role adm = admin) :
  put_report (as_user dev req) st
  = (mkResponse 403 (Error "Only admins can escalate severity to critical"), st)
  ∧ ∃ e st',
      put_report (as_user adm req) st
      = (mkResponse 200 (ReportSummary (summary (deref st' l))), st')
      ∧ auditLogs st' = (auditLogs st ++ [e])%list
      ∧ audit_reportId e = i
      ∧ audit_userId e = user_id adm
      ∧ audit_changes e !! "severity"
        = Some (Severity_str (severity (deref st l)), "critical")
      ∧ ((∀ t, upd_title u = Some t → t = title (deref st l)) →
         (∀ d, upd_description u = Some d → d = description (deref st l)) →
         audit_changes e
         = {[ "severity" := (Severity_str (severity (deref st l)), "critical") ]})
      ∧ severity (deref st' l) = critical.
Proof.
  split.
  - apply (put_report_denied _ st i u l); try done.
    by apply escalation_denied_developer.
  - assert (Hne : critical ≠ severity (deref st l)) by congruence.
    destruct (UpdateReportSchema_supplied _ _ Hu) as [Htr Hk];
      [right; right; by rewrite Hsev|].
    pose proof (put_report_pass (as_user adm req) st i u l Hid Htr Hk Hu Hget Hfree
                  (escalation_denied_admin u req adm Hadm)) as Hpass.
    rewrite (changed_severity u _ critical Hsev Hne) in Hpass.
    eexists _, _. split; [|repeat split].
    + rewrite Hpass. f_equal. rewrite deref_push_audit, deref_write_eq. done.
    + done.
    + simpl. by apply getReport_Some in Hget as [_ ?].
    + done.
    + simpl. by apply (changes_of_severity u _ critical).
    + intros Ht Hd. simpl. by apply (changes_of_only_severity u _ critical).
    + rewrite deref_push_audit, deref_write_eq. simpl. by rewrite Hsev.
Qed.

Lemma C1_escalation_to_critical_needs_admin_witness :
  put_report (request "1" (Some (JObj [("severity", JStr "critical")])) dev1 300) st_two
  = (mkResponse 403 (Error "Only admins can escalate severity to critical"), st_two)
  ∧ ∃ e st',
      put_report (request "1" (Some (JObj [("severity", JStr "critical")])) admin1 300)
                 st_two
      = (mkResponse 200 (ReportSummary (summary (deref st' 1%positive))), st')
      ∧ auditLogs st' = [e]
      ∧ audit_changes e = {[ "severity" := ("low", "critical") ]}.
Proof.
  destruct (C1_escalation_to_critical_needs_admin
              (request "1" (Some (JObj [("severity", JStr "critical")])) dev1 300)
              st_two 1 (mkUpdates None None (Some critical)) 1%positive dev1 admin1
              eq_refl eq_refl eq_refl eq_refl ltac:(discriminate) eq_refl eq_refl eq_refl)
    as (Hdev & e & st' & Hadm & Hlog & _ & _ & _ & Honly & _).
  split; [exact Hdev|]. exists e, st'. split; [exact Hadm|]. split; [exact Hlog|].
  apply Honly; discriminate.
Defined.

(** C1 as stated fails on two kinds of payload that contain severity
    critical: with a title held by another report the developer is
    answered 409, not 403; and when the payload also changes the title the
    admin's audit entry holds the title field next to the severity field. *)
Lemma C1_counterexample :
  ReportStore.getReport st_two 1 = Some 1%positive
  ∧ severity (deref st_two 1%positive) = low
  ∧ UpdateReportSchema (Some (JObj [("title", JStr "c"); ("severity", JStr "critical")]))
    = Some (mkUpdates (Some "c") None (Some critical))
  ∧ put_report
      (request "1" (Some (JObj [("title", JStr "c"); ("severity", JStr "critical")]))
               dev1 300) st_two
    = (mkResponse 409 (Error "Another report with this title already exists"), st_two)
  ∧ audit_changes <$>
      auditLogs
        (snd (put_report
                (request "1" (Some (JObj [("title", JStr "A2");
                                          ("severity", JStr "critical")]))
                         admin1 300) st_two))
    = [ {[ "title" := ("A", "A2"); "severity" := ("low", "critical") ]} ].
Proof. repeat split; vm_compute; reflexivity. Qed.

(** C2, as the code has it. When the stored severity is already critical
    and the payload sets severity critical and nothing else, no audit
    entry is appended and the state is unchanged for either role; an admin
    is answered 200, while a developer is answered 403: the rule tests the
    incoming value and the role only, not whether the value differs from
    the stored one. *)
Theorem C2_resubmitting_critical
    (req : Request) (st : State) (i : Z) (u : Updates) (l : loc)
    (caller : AuthPayload)
    (Hid : JS.parseInt (params_id req) = Some i)
    (Hu : UpdateReportSchema (req_body req) = Some u)
    (Htitle : upd_title u = None)
    (Hdesc : upd_description u = None)
    (Hsev : upd_severity u = Some critical)
    (Hget : ReportStore.getReport st i = Some l)
    (Hcur : severity (deref st l) = critical) :
  snd (put_report (as_user caller req) st) = st
  ∧ auditLogs (snd (put_report (as_user caller req) st)) = auditLogs st
  ∧ (user_role caller = admin →
     put_report (as_user caller req) st
     = (mkResponse 200 (ReportSummary (summary (deref st l))), st))
  ∧ (user_role caller = developer →
     put_report (as_user caller req) st
     = (mkResponse 403 (Error "Only admins can escalate severity to critical"), st)).
Proof.
  assert (Hfree : title_taken st u i = false)
    by (unfold title_taken; by rewrite Htitle).
  assert (Hadmin : user_role caller = admin →
                   put_report (as_user caller req) st
                   = (mkResponse 200 (ReportSummary (summary (deref st l))), st)).
  { intros Hrole.
    destruct (UpdateReportSchema_supplied _ _ Hu) as [Htr Hk];
      [right; right; by rewrite Hsev|].
    rewrite (put_report_pass (as_user caller req) st i u l Hid Htr Hk Hu Hget Hfree
               (escalation_denied_admin u req caller Hrole)).
    unfold changed. rewrite Htitle, Hdesc, Hsev, Hcur. done. }
  assert (Hdeveloper : user_role caller = developer →
                       put_report (as_user caller req) st
                       = (mkResponse 403
                            (Error "Only admins can escalate severity to critical"), st)).
  { intros Hrole. apply (put_report_denied _ st i u l); try done.
    by apply escalation_denied_developer. }
  assert (Hsame : snd (put_report (as_user caller req) st) = st).
  { destruct (user_role caller) eqn:Hrole;
      [by rewrite Hadmin | by rewrite Hdeveloper]. }
  repeat split; [done | by rewrite Hsame | done..].
Qed.

Lemma C2_resubmitting_critical_witness :
  put_report (request "1" (Some (JObj [("severity", JStr "critical")])) admin1 400)
             st_critical
  = (mkResponse 200 (ReportSummary (summary (deref st_critical 1%positive))), st_critical).
Proof.
  destruct (C2_resubmitting_critical
              (request "1" (Some (JObj [("severity", JStr "critical")])) admin1 400)
              st_critical 1 (mkUpdates None None (Some critical)) 1%positive admin1
              eq_refl eq_refl eq_refl eq_refl eq_refl eq_refl eq_refl)
    as (_ & _ & Hadmin & _).
  apply Hadmin. reflexivity.
Defined.

(** C2 as stated fails for the developer: report 1 is already critical,
    the payload is exactly [{severity: critical}], and the answer is 403. *)
Lemma C2_counterexample :
  severity (deref st_critical 1%positive) = critical
  ∧ ReportStore.getReport st_critical 1 = Some 1%positive
  ∧ put_report (request "1" (Some (JObj [("severity", JStr "critical")])) dev1 400)
               st_critical
    = (mkResponse 403 (Error "Only admins can escalate severity to critical"),
       st_critical).
Proof. repeat split; vm_compute; reflexivity. Qed.

(** ** Idempotence of identical updates *)

Lemma unchanged_not_changed u r :
  (∀ t, upd_title u = Some t → t = title r) →
  (∀ d, upd_description u = Some d → d = description r) →
  (∀ s, upd_severity u = Some s → s = severity r) →
  changed u r = false.
Proof.
  intros Ht Hd Hs. unfold changed.
  destruct (upd_title u) as [t|]; [rewrite (Ht t eq_refl)|];
    (destruct (upd_description u) as [d|]; [rewrite (Hd d eq_refl)|]);
    (destruct (upd_severity u) as [s|]; [rewrite (Hs s eq_refl)|]);
    simpl; by rewrite ?String.eqb_refl, ?Severity_eqb_refl.
Qed.

(** Re-submitting the report's own title passes the uniqueness check. *)
Lemma own_title_not_taken st i u l :
  wf st → ReportStore.getReport st i = Some l →
  (∀ t, upd_title u = Some t → t = title (deref st l)) →
  title_taken st u i = false.
Proof.
  intros Hwf Hget Ht. unfold title_taken.
  destruct (upd_title u) as [t|]; [|done]. rewrite (Ht t eq_refl).
  apply getReport_Some in Hget as [Hl Hid].
  apply andb_false_intro2, titleExists_false. intros l' Hl' Hsame.
  assert (l' = l) as -> by (by apply (wf_title_inj _ Hwf)).
  exists i. repeat split; [|done]. pose proof (wf_id_range _ Hwf l Hl). lia.
Qed.

(** C3, as the code has it. In a reachable state, for an existing report
    and a non-empty payload that passes the schema and whose supplied
    title, description and severity equal the stored ones, the state is
    left identical: no audit entry, [updatedAt] untouched. The answer is
    200 with the current summary, except that a caller who is not an admin
    and supplies severity critical is answered 403 by the escalation rule. *)
Theorem C3_identical_update_changes_nothing
    (req : Request) (st : State) (i : Z) (u : Updates) (l : loc)
    (Hreach : reachable st)
    (Hid : JS.parseInt (params_id req) = Some i)
    (Hkeys : from_option keys_length O (req_body req) ≠ O)
    (Hu : UpdateReportSchema (req_body req) = Some u)
    (Hget : ReportStore.getReport st i = Some l)
    (Htitle : ∀ t, upd_title u = Some t → t = title (deref st l))
    (Hdesc : ∀ d, upd_description u = Some d → d = description (deref st l))
    (Hsev : ∀ s, upd_severity u = Some s → s = severity (deref st l)) :
  snd (put_report req st) = st
  ∧ auditLogs (snd (put_report req st)) = auditLogs st
  ∧ updatedAt (deref (snd (put_report req st)) l) = updatedAt (deref st l)
  ∧ (escalation_denied u req = false →
     fst (put_report req st) = mkResponse 200 (ReportSummary (summary (deref st l))))
  ∧ (escalation_denied u req = true →
     fst (put_report req st)
     = mkResponse 403 (Error "Only admins can escalate severity to critical")).
Proof.
  pose proof (reachable_wf _ Hreach) as Hwf.
  pose proof (own_title_not_taken st i u l Hwf Hget Htitle) as Hfree.
  destruct (UpdateReportSchema_object _ _ Hu) as [fields Hbody].
  assert (Htr : truthy_body (req_body req) = true) by (by rewrite Hbody).
  destruct (escalation_denied u req) eqn:Hesc.
  - rewrite (put_report_denied req st i u l Hid Hu Hget Hfree Hesc). by repeat split.
  - rewrite (put_report_pass req st i u l Hid Htr Hkeys Hu Hget Hfree Hesc).
    rewrite (unchanged_not_changed u _ Htitle Hdesc Hsev). by repeat split.
Qed.

Lemma C3_identical_update_changes_nothing_witness :
  put_report
    (request "2" (Some (JObj [("title", JStr "C"); ("description", JStr "D");
                              ("severity", JStr "high")])) dev1 500) st_two
  = (mkResponse 200 (ReportSummary (summary (deref st_two 2%positive))), st_two).
Proof.
  destruct (C3_identical_update_changes_nothing
              (request "2" (Some (JObj [("title", JStr "C"); ("description", JStr "D");
                                        ("severity", JStr "high")])) dev1 500)
              st_two 2 (mkUpdates (Some "C") (Some "D") (Some high)) 2%positive
              reachable_st_two eq_refl ltac:(discriminate) eq_refl eq_refl)
    as (Hst & _ & _ & Hok & _).
  - by intros t [= <-].
  - by intros d [= <-].
  - by intros s [= <-].
  - specialize (Hok eq_refl).
    destruct (put_report _ st_two) as [res st']. simpl in Hst, Hok. by subst.
Defined.

(** C3 as stated fails for a developer on a critical report: every
    supplied value equals the stored one, yet the update does not succeed. *)
Lemma C3_counterexample :
  title (deref st_critical 1%positive) = "A"
  ∧ description (deref st_critical 1%positive) = "B"
  ∧ severity (deref st_critical 1%positive) = critical
  ∧ put_report
      (request "1" (Some (JObj [("title", JStr "A"); ("description", JStr "B");
                                ("severity", JStr "critical")])) dev1 500) st_critical
    = (mkResponse 403 (Error "Only admins can escalate severity to critical"),
       st_critical).
Proof. repeat split; vm_compute; reflexivity. Qed.

(** ** What the audit trail records *)

Lemma post_attachment_ok jwt_sign req st i l f :
  JS.parseInt (params_id req) = Some i →
  ReportStore.getReport st i = Some l →
  req_file req = Some f →
  post_attachment jwt_sign req st
  = (mkResponse 200
       (DownloadUrl i (file_filename f)
          (jwt_sign (FileClaims i (file_filename f)) (15 * 60) (req_now req))),
     write l (set_updatedAt (req_now req)
              ∘ push_attachment
                  (mkAttachment (file_filename f) (file_originalname f)
                                (file_mimetype f) (file_size f) (req_now req))) st).
Proof.
  intros Hid Hget Hf. unfold post_attachment, ReportStore.addAttachment.
  rewrite Hid, Hget, Hf. simpl. by rewrite write_write.
Qed.

Lemma auditLogs_post_attachment jwt_sign req st :
  auditLogs (snd (post_attachment jwt_sign req st)) = auditLogs st.
Proof.
  unfold post_attachment, ReportStore.addAttachment.
  destruct (JS.parseInt (params_id req)) as [i|]; [|done].
  destruct (ReportStore.getReport st i) as [l|] eqn:Hget; [|done].
  by destruct (req_file req) as [f|].
Qed.

Lemma changed_changes_nonempty u r :
  changed u r = true → changes_of u r ≠ ∅.
Proof.
  rewrite <- changes_of_size. intros Hsize Hempty.
  rewrite Hempty, map_size_empty in Hsize. discriminate.
Qed.

(** C5, as the code has it. Only field updates are audited: a PUT that
    changes the state appends exactly one audit entry, with a non-empty
    changes map; an attachment upload never appends one, although a
    successful upload (existing report, file present) is answered 200,
    appends the attachment to the report and sets [updatedAt]. *)
Theorem C5_only_field_updates_are_audited
    (jwt_sign : Claims → Z → Date → string) (req : Request) (st : State) :
  (snd (put_report req st) ≠ st →
   ∃ e, auditLogs (snd (put_report req st)) = (auditLogs st ++ [e])%list
        ∧ audit_changes e ≠ ∅)
  ∧ auditLogs (snd (post_attachment jwt_sign req st)) = auditLogs st
  ∧ (∀ i l f,
       JS.parseInt (params_id req) = Some i →
       ReportStore.getReport st i = Some l →
       req_file req = Some f →
       status (fst (post_attachment jwt_sign req st)) = 200
       ∧ deref (snd (post_attachment jwt_sign req st)) l
         = set_updatedAt (req_now req)
             (push_attachment
                (mkAttachment (file_filename f) (file_originalname f)
                              (file_mimetype f) (file_size f) (req_now req))
                (deref st l))).
Proof.
  repeat split.
  - intros Hneq.
    destruct (put_report_cases req st)
      as [?|(i & u & l & _ & _ & _ & _ & _ & Hch & ->)]; [done|].
    eexists. split; [done|]. simpl. by apply changed_changes_nonempty.
  - apply auditLogs_post_attachment.
  - by rewrite (post_attachment_ok jwt_sign req st i l f).
  - rewrite (post_attachment_ok jwt_sign req st i l f) by done.
    simpl. by rewrite deref_write_eq.
Qed.

Lemma C5_only_field_updates_are_audited_witness :
  auditLogs st_uploaded = auditLogs st_two
  ∧ attachments (deref st_uploaded 1%positive)
    = [mkAttachment "f1" "trace.log" "text/plain" 42 1000]
  ∧ ∃ e, auditLogs st_critical = (auditLogs st_two ++ [e])%list ∧ audit_changes e ≠ ∅.
Proof.
  destruct (C5_only_field_updates_are_audited toy_sign (upload "1" file1 dev1 1000) st_two)
    as (_ & Hlog & Hup).
  destruct (C5_only_field_updates_are_audited toy_sign
              (request "1" (Some (JObj [("severity", JStr "critical")])) admin1 300) st_two)
    as (Hput & _).
  split; [exact Hlog|split].
  - destruct (Hup 1 1%positive file1 eq_refl eq_refl eq_refl) as [_ Hobj].
    unfold st_uploaded. rewrite Hobj. reflexivity.
  - apply Hput. intros Heq. apply (f_equal auditLogs) in Heq. vm_compute in Heq.
    discriminate.
Defined.

(** C5 as stated fails on an upload: the report is mutated (one more
    attachment, a new [updatedAt]) and the audit log is as it was. *)
Lemma C5_counterexample :
  fst (post_attachment toy_sign (upload "1" file1 dev1 1000) st_two)
  = mkResponse 200 (DownloadUrl 1 "f1" "cap-1-f1")
  ∧ attachments (deref st_two 1%positive) = []
  ∧ attachments (deref st_uploaded 1%positive)
    = [mkAttachment "f1" "trace.log" "text/plain" 42 1000]
  ∧ updatedAt (deref st_two 1%positive) = 100
  ∧ updatedAt (deref st_uploaded 1%positive) = 1000
  ∧ auditLogs st_two = []
  ∧ auditLogs st_uploaded = [].
Proof. repeat split; vm_compute; reflexivity. Qed.

(** ** Pagination of entries *)

(** The two defaults. *)
Lemma paging_default_pageSize req :
  truthy (query_int (query_page req)) = true →
  truthy (query_int (query_pageSize req)) = false →
  paging req = (query_int (query_page req), Some (Some 10)).
Proof. intros Hp Hs. unfold paging. by rewrite Hp, Hs. Qed.

Lemma paging_default_page req :
  truthy (query_int (query_page req)) = false →
  truthy (query_int (query_pageSize req)) = true →
  paging req = (Some (Some 1), query_int (query_pageSize req)).
Proof. intros Hp Hs. unfold paging. rewrite Hp, Hs. simpl. by rewrite Hs. Qed.

Lemma paging_falsy req :
  truthy (query_int (query_page req)) = false →
  truthy (query_int (query_pageSize req)) = false →
  paging req = (query_int (query_page req), query_int (query_pageSize req)).
Proof. intros Hp Hs. unfold paging. rewrite Hp, Hs. simpl. by rewrite Hs. Qed.

(** A page that parses to [NaN] or to [0] is falsy: with no usable
    [pageSize] next to it the validation is never reached. *)
Lemma get_report_falsy_paging req st i l :
  JS.parseInt (params_id req) = Some i →
  ReportStore.getReport st i = Some l →
  query_include req = Some "entries" →
  truthy (query_int (query_page req)) = false →
  truthy (query_int (query_pageSize req)) = false →
  status (get_report req st) = 200.
Proof.
  intros Hid Hget Hinc Hp Hs. unfold get_report.
  rewrite Hid, Hget, Hinc, (paging_falsy req Hp Hs), Hp. reflexivity.
Qed.

(** C8, at the inputs where the code departs from it. With report 1
    stored: [page=abc] alone is answered 200, not 400; so is [page=0]
    alone; [page=0&pageSize=5] and [page=abc&pageSize=5] are answered 200
    with page taken as 1; only values that parse to a negative number are
    answered 400. *)
Theorem C8_invalid_paging_is_ignored :
  status (get_report (read_entries "1" (Some "abc") None dev1) st_two) = 200
  ∧ status (get_report (read_entries "1" (Some "0") None dev1) st_two) = 200
  ∧ status (get_report (read_entries "1" None (Some "0") dev1) st_two) = 200
  ∧ paging (read_entries "1" (Some "0") (Some "5") dev1) = (Some (Some 1), Some (Some 5))
  ∧ status (get_report (read_entries "1" (Some "0") (Some "5") dev1) st_two) = 200
  ∧ paging (read_entries "1" (Some "abc") (Some "5") dev1) = (Some (Some 1), Some (Some 5))
  ∧ status (get_report (read_entries "1" (Some "abc") (Some "5") dev1) st_two) = 200
  ∧ get_report (read_entries "1" (Some "-1") None dev1) st_two
    = mkResponse 400 (Error "Invalid pagination parameters").
Proof. repeat split; vm_compute; reflexivity. Qed.

(** ** References handed out by the store *)

(** C9, as the code has it. [getReport] returns the stored object itself
    and [getAllReports] the store's own array: an assignment through the
    reference [getReport] returned is what every later [getReport] of that
    id reads, and an element popped through the array [getAllReports]
    returned is gone from the store. *)
Theorem C9_returned_references_are_live
    (st : State) (i : Z) (l : loc) (f : Report → Report)
    (Hget : ReportStore.getReport st i = Some l)
    (Hid : id (f (deref st l)) = i) :
  ReportStore.getReport (write l f st) i = Some l
  ∧ deref (write l f st) l = f (deref st l)
  ∧ ReportStore.elements_of (ReportStore.getAllReports st)
      (ReportStore.array_pop (ReportStore.getAllReports st) st)
    = removelast (reports st).
Proof.
  repeat split.
  - rewrite getReport_write; [done|].
    apply getReport_Some in Hget as [_ ?]. congruence.
  - apply deref_write_eq.
Qed.

Lemma C9_returned_references_are_live_witness :
  ReportStore.getReport (write 1%positive (set_title "overwritten") st_two) 1
  = Some 1%positive
  ∧ title (deref (write 1%positive (set_title "overwritten") st_two) 1%positive)
    = "overwritten".
Proof.
  destruct (C9_returned_references_are_live st_two 1 1%positive (set_title "overwritten")
              eq_refl eq_refl) as (Hfind & Hobj & _).
  split; [exact Hfind|]. rewrite Hobj. reflexivity.
Defined.

(** C9 as stated fails: after an assignment to the title of the object
    [getReport(1)] returned, the GET route answers with the new title; and
    after a [pop()] on the array [getAllReports()] returned, report 2 is no
    longer found. *)
Lemma C9_counterexample :
  ReportStore.getReport st_two 1 = Some 1%positive
  ∧ sum_title (summary (deref st_two 1%positive)) = "A"
  ∧ get_report (request "1" None dev1 0)
      (write 1%positive (set_title "overwritten") st_two)
    = mkResponse 200
        (ReportSummary
           (summary (set_title "overwritten" (deref st_two 1%positive))))
  ∧ stored (write 1%positive (set_title "overwritten") st_two) ≠ stored st_two
  ∧ ReportStore.getReport st_two 2 = Some 2%positive
  ∧ ReportStore.getReport
      (ReportStore.array_pop (ReportStore.getAllReports st_two) st_two) 2 = None.
Proof.
  repeat split; try (vm_compute; reflexivity).
  intros Heq. vm_compute in Heq. discriminate.
Qed.

(** * Further properties of the code *)

(** ** Creating and reading back *)

Lemma find_app_r {A} (p : A → bool) (l1 l2 : list A) :
  (∀ x, x ∈ l1 → p x = false) → List.find p (l1 ++ l2) = List.find p l2.
Proof.
  induction l1 as [|a l1 IH]; intros Hnone; [done|]. simpl.
  rewrite (Hnone a) by apply list_elem_of_here.
  apply IH. intros x Hx. apply Hnone. by apply list_elem_of_further.
Qed.

Lemma stored_addReport st t d s now :
  wf st →
  stored (snd (ReportStore.addReport st t d s now))
  = (stored st ++ [mkReport (nextId st) t d s now now [] []])%list.
Proof.
  intros Hwf. pose proof (deref_addReport_new st t d s now) as Hnew.
  pose proof (deref_addReport_old st t d s now) as Hold.
  remember (ReportStore.addReport st t d s now) as p eqn:E.
  assert (Hrep : reports (snd p) = (reports st ++ [fst p])%list) by (by subst p).
  clear E. unfold stored. rewrite Hrep, map_app. cbn [map]. rewrite Hnew. f_equal.
  apply map_ext_in. intros l Hl. apply Hold, (wf_alloc _ Hwf).
  by apply list_elem_of_In.
Qed.

Lemma getReport_addReport_new st t d s now :
  wf st →
  ReportStore.getReport (snd (ReportStore.addReport st t d s now)) (nextId st)
  = Some (fst (ReportStore.addReport st t d s now)).
Proof.
  intros Hwf. pose proof (deref_addReport_new st t d s now) as Hnew.
  pose proof (deref_addReport_old st t d s now) as Hold.
  remember (ReportStore.addReport st t d s now) as p eqn:E.
  assert (Hrep : reports (snd p) = (reports st ++ [fst p])%list) by (by subst p).
  clear E. unfold ReportStore.getReport. rewrite Hrep, find_app_r.
  - cbn [List.find]. rewrite Hnew. cbn [id]. by rewrite Z.eqb_refl.
  - intros l Hl. rewrite Hold by (by apply (wf_alloc _ Hwf)).
    pose proof (wf_id_range _ Hwf l Hl). apply Z.eqb_neq. lia.
Qed.

(** X1. A create whose body passes the schema and whose title is free is
    answered 201 with the summary of the new report: the next id of the
    counter, the supplied title, description and severity, both dates at
    the request time, no entry. The report is appended after the stored
    ones, the counter moves by one and the audit log is not written. *)
Theorem X1_create_report
    (req : Request) (st : State) (data : NewReport)
    (Hreach : reachable st)
    (Hdata : NewReportSchema (req_body req) = Some data)
    (Hfree : ReportStore.titleExists st (new_title data) None = false) :
  fst (post_report req st)
  = mkResponse 201
      (ReportSummary
         (mkSummary (nextId st) (new_title data) (new_description data)
                    (new_severity data) (req_now req) (req_now req) 0
                    (severityScoreMap (new_severity data))))
  ∧ stored (snd (post_report req st))
    = (stored st
       ++ [mkReport (nextId st) (new_title data) (new_description data)
                    (new_severity data) (req_now req) (req_now req) [] []])%list
  ∧ nextId (snd (post_report req st)) = nextId st + 1
  ∧ auditLogs (snd (post_report req st)) = auditLogs st.
Proof.
  pose proof (reachable_wf _ Hreach) as Hwf.
  pose proof (deref_addReport_new st (new_title data) (new_description data)
                (new_severity data) (req_now req)) as Hnew.
  pose proof (stored_addReport st (new_title data) (new_description data)
                (new_severity data) (req_now req) Hwf) as Hstored.
  unfold post_report. rewrite Hdata, Hfree.
  destruct (ReportStore.addReport st (new_title data) (new_description data)
              (new_severity data) (req_now req)) as [l st'] eqn:E.
  cbn [fst snd] in *. rewrite Hnew. cbn [id title description severity createdAt updatedAt].
  repeat split; [done| |].
  - by apply (f_equal (fun p => nextId (snd p))) in E.
  - by apply (f_equal (fun p => auditLogs (snd p))) in E.
Qed.

Lemma X1_create_report_witness :
  fst (post_report
         (request "" (Some (JObj [("title", JStr "E"); ("description", JStr "F")]))
                  dev1 700) st_two)
  = mkResponse 201 (ReportSummary (mkSummary 3 "E" "F" low 700 700 0 1)).
Proof.
  destruct (X1_create_report
              (request "" (Some (JObj [("title", JStr "E"); ("description", JStr "F")]))
                       dev1 700) st_two (mkNewReport "E" "F" low)
              reachable_st_two eq_refl eq_refl) as (Hres & _).
  exact Hres.
Defined.

(** X2. A report that has just been created is served by GET under the id
    the create answered with: the summary view of GET carries exactly the
    summary the 201 response carried. *)
Theorem X2_created_report_is_served
    (req req' : Request) (st : State) (data : NewReport)
    (Hreach : reachable st)
    (Hdata : NewReportSchema (req_body req) = Some data)
    (Hfree : ReportStore.titleExists st (new_title data) None = false)
    (Hid : JS.parseInt (params_id req') = Some (nextId st))
    (Hview : query_include req' ≠ Some "entries") :
  get_report req' (snd (post_report req st))
  = mkResponse 200 (payload (fst (post_report req st))).
Proof.
  pose proof (reachable_wf _ Hreach) as Hwf.
  pose proof (deref_addReport_new st (new_title data) (new_description data)
                (new_severity data) (req_now req)) as Hnew.
  pose proof (getReport_addReport_new st (new_title data) (new_description data)
                (new_severity data) (req_now req) Hwf) as Hget.
  unfold post_report. rewrite Hdata, Hfree.
  destruct (ReportStore.addReport st (new_title data) (new_description data)
              (new_severity data) (req_now req)) as [l st'] eqn:E.
  cbn [fst snd] in *. unfold get_report. rewrite Hid, Hget.
  rewrite bool_decide_eq_false_2 by done. by rewrite Hnew.
Qed.

Lemma X2_created_report_is_served_witness :
  get_report (request "3" None admin1 900)
    (snd (post_report
            (request "" (Some (JObj [("title", JStr "E"); ("description", JStr "F")]))
                     dev1 700) st_two))
  = mkResponse 200 (ReportSummary (mkSummary 3 "E" "F" low 700 700 0 1)).
Proof.
  rewrite (X2_created_report_is_served
             (request "" (Some (JObj [("title", JStr "E"); ("description", JStr "F")]))
                      dev1 700)
             (request "3" None admin1 900) st_two (mkNewReport "E" "F" low)
             reachable_st_two eq_refl eq_refl eq_refl ltac:(discriminate)).
  reflexivity.
Defined.

(** ** Stored reports *)

Lemma getReport_finds st l :
  wf st → l ∈ reports st → ReportStore.getReport st (id (deref st l)) = Some l.
Proof.
  intros Hwf Hl.
  destruct (ReportStore.getReport st (id (deref st l))) as [l'|] eqn:Hget.
  - apply getReport_Some in Hget as [Hl' Hid]. f_equal.
    by apply (wf_id_inj _ Hwf).
  - by apply (getReport_None _ _ l) in Hget.
Qed.

(** X4. In every reachable state the ids of the stored reports are
    positive, below the counter and pairwise distinct, and [getReport]
    of the id of a stored report returns that very report. *)
Theorem X4_ids_are_keys (st : State) (l : loc)
    (Hreach : reachable st) (Hl : l ∈ reports st) :
  0 < id (deref st l) < nextId st
  ∧ ReportStore.getReport st (id (deref st l)) = Some l
  ∧ ∀ l', l' ∈ reports st → id (deref st l') = id (deref st l) → l' = l.
Proof.
  pose proof (reachable_wf _ Hreach) as Hwf. repeat split.
  - by apply (wf_id_range _ Hwf).
  - by apply (wf_id_range _ Hwf).
  - by apply getReport_finds.
  - intros l' Hl' Hid. by apply (wf_id_inj _ Hwf).
Qed.

Lemma X4_ids_are_keys_witness :
  ReportStore.getReport st_two (id (deref st_two 2%positive)) = Some 2%positive.
Proof.
  destruct (X4_ids_are_keys st_two 2%positive reachable_st_two) as (_ & Hget & _).
  - vm_compute. apply list_elem_of_further, list_elem_of_here.
  - exact Hget.
Defined.

(** ** What a step can change *)

Lemma post_report_cases req st :
  snd (post_report req st) = st ∧ status (fst (post_report req st)) ≠ 201
  ∨ ∃ data,
      NewReportSchema (req_body req) = Some data
      ∧ ReportStore.titleExists st (new_title data) None = false
      ∧ status (fst (post_report req st)) = 201
      ∧ snd (post_report req st)
        = snd (ReportStore.addReport st (new_title data) (new_description data)
                 (new_severity data) (req_now req)).
Proof.
  unfold post_report.
  destruct (NewReportSchema (req_body req)) as [data|]; [|by left].
  destruct (ReportStore.titleExists st (new_title data) None) eqn:Hfree; [by left|].
  right. exists data. by repeat split.
Qed.

Lemma post_attachment_cases jwt_sign req st :
  snd (post_attachment jwt_sign req st) = st
  ∧ status (fst (post_attachment jwt_sign req st)) ≠ 200
  ∨ ∃ i l f,
      JS.parseInt (params_id req) = Some i
      ∧ ReportStore.getReport st i = Some l
      ∧ req_file req = Some f
      ∧ post_attachment jwt_sign req st
        = (mkResponse 200
             (DownloadUrl i (file_filename f)
                (jwt_sign (FileClaims i (file_filename f)) (15 * 60) (req_now req))),
           write l (set_updatedAt (req_now req)
                    ∘ push_attachment
                        (mkAttachment (file_filename f) (file_originalname f)
                           (file_mimetype f) (file_size f) (req_now req))) st).
Proof.
  destruct (JS.parseInt (params_id req)) as [i|] eqn:Hid;
    [|left; unfold post_attachment; by rewrite Hid].
  destruct (ReportStore.getReport st i) as [l|] eqn:Hget;
    [|left; unfold post_attachment; by rewrite Hid, Hget].
  destruct (req_file req) as [f|] eqn:Hf;
    [|left; unfold post_attachment; by rewrite Hid, Hget, Hf].
  right. exists i, l, f. repeat split; [done..|]. by apply post_attachment_ok.
Qed.

(** X8. A request that is not answered with success changes nothing: a
    create not answered 201, an update not answered 200 and an upload not
    answered 200 each return the state they were given. *)
Theorem X8_failed_requests_change_nothing
    (jwt_sign : Claims → Z → Date → string) (req : Request) (st : State) :
  (status (fst (post_report req st)) ≠ 201 → snd (post_report req st) = st)
  ∧ (status (fst (put_report req st)) ≠ 200 → snd (put_report req st) = st)
  ∧ (status (fst (post_attachment jwt_sign req st)) ≠ 200 →
     snd (post_attachment jwt_sign req st) = st).
Proof.
  repeat split.
  - intros Hs. by destruct (post_report_cases req st) as [[? _]|(? & _ & _ & ? & _)].
  - intros Hs.
    destruct (put_report_cases req st)
      as [?|(i & u & l & _ & _ & _ & _ & _ & _ & Heq)]; [done|].
    by rewrite Heq in Hs.
  - intros Hs.
    destruct (post_attachment_cases jwt_sign req st)
      as [[? _]|(i & l & f & _ & _ & _ & Heq)]; [done|].
    by rewrite Heq in Hs.
Qed.

Lemma X8_failed_requests_change_nothing_witness :
  snd (put_report (request "9" (Some (JObj [("title", JStr "Z")])) admin1 10) st_two)
  = st_two
  ∧ snd (post_report (request "" (Some (JObj [("title", JStr "Z")])) admin1 10) st_two)
    = st_two
  ∧ snd (post_attachment toy_sign (upload "9" file1 dev1 10) st_two) = st_two.
Proof.
  split; [|split].
  - apply (X8_failed_requests_change_nothing toy_sign
             (request "9" (Some (JObj [("title", JStr "Z")])) admin1 10) st_two).
    vm_compute. discriminate.
  - apply (X8_failed_requests_change_nothing toy_sign
             (request "" (Some (JObj [("title", JStr "Z")])) admin1 10) st_two).
    vm_compute. discriminate.
  - apply (X8_failed_requests_change_nothing toy_sign (upload "9" file1 dev1 10) st_two).
    vm_compute. discriminate.
Defined.

(** The effect of a step, case by case. *)
Lemma step_cases st st' :
  step st st' →
  st' = st
  ∨ (∃ t d s now, ReportStore.titleExists st t None = false ∧ t ≠ "" ∧ d ≠ ""
                  ∧ st' = snd (ReportStore.addReport st t d s now))
  ∨ (∃ req i u l,
       UpdateReportSchema (req_body req) = Some u
       ∧ ReportStore.getReport st i = Some l
       ∧ title_taken st u i = false
       ∧ changed u (deref st l) = true
       ∧ st' = push_audit (audit_of req st l u)
                 (write l (set_updatedAt (req_now req) ∘ patch u) st))
  ∨ (∃ i l a now, ReportStore.getReport st i = Some l
                  ∧ st' = write l (set_updatedAt now ∘ push_attachment a) st)
  ∨ (∃ ls, ls `sublist_of` reports st
           ∧ st' = mkState (heap st) ls (nextId st) (auditLogs st)).
Proof.
  destruct 1 as [req st|req st|jwt_sign req st|i st].
  - destruct (post_report_cases req st) as [[? _]|(data & Hd & Hf & _ & ->)];
      [by left|].
    right; left. exists (new_title data), (new_description data),
      (new_severity data), (req_now req). repeat split; [done| |].
    + unfold NewReportSchema in Hd.
      destruct (req_body req) as [[| | | | |fields]|]; try discriminate.
      destruct (strict_keys fields); [|discriminate].
      destruct (field "title" fields ≫= string_min1) as [t|] eqn:Et;
        [|discriminate]. simpl in Hd.
      destruct (field "description" fields ≫= string_min1) as [d|]; [|discriminate].
      simpl in Hd. destruct (optional SeverityEnum _); [|discriminate].
      injection Hd as <-. simpl.
      destruct (field "title" fields) as [v|]; [|discriminate]. simpl in Et.
      apply string_min1_truthy in Et. by destruct t.
    + unfold NewReportSchema in Hd.
      destruct (req_body req) as [[| | | | |fields]|]; try discriminate.
      destruct (strict_keys fields); [|discriminate].
      destruct (field "title" fields ≫= string_min1) as [t|]; [|discriminate].
      simpl in Hd.
      destruct (field "description" fields ≫= string_min1) as [d|] eqn:Ed;
        [|discriminate].
      simpl in Hd. destruct (optional SeverityEnum _); [|discriminate].
      injection Hd as <-. simpl.
      destruct (field "description" fields) as [v|]; [|discriminate]. simpl in Ed.
      apply string_min1_truthy in Ed. by destruct d.
  - destruct (put_report_cases req st)
      as [?|(i & u & l & _ & Hu & Hget & Hfree & _ & Hch & ->)]; [by left|].
    right; right; left. exists req, i, u, l. by repeat split.
  - destruct (post_attachment_cases jwt_sign req st)
      as [[? _]|(i & l & f & _ & Hget & _ & ->)]; [by left|].
    right; right; right; left. by eexists i, l, _, _.
  - destruct (deleteReport_state st i) as (ls & Hsub & ->).
    right; right; right; right. by exists ls.
Qed.

(** X5. The audit log is append-only: whatever a step does, the log it
    leaves starts with the log it found, and is longer by at most one
    entry. *)
Theorem X5_audit_log_append_only (st st' : State) (Hstep : step st st') :
  auditLogs st `prefix_of` auditLogs st'
  ∧ (length (auditLogs st') ≤ S (length (auditLogs st)))%nat.
Proof.
  destruct (step_cases _ _ Hstep)
    as [->|[(t & d & s & now & _ & _ & _ & ->)
       |[(req & i & u & l & _ & _ & _ & _ & ->)
       |[(i & l & a & now & _ & ->)|(ls & _ & ->)]]]]; simpl;
    try (split; [done | lia]).
  split; [by apply prefix_app_r | rewrite length_app; simpl; lia].
Qed.

Lemma X5_audit_log_append_only_witness :
  auditLogs st_two `prefix_of` auditLogs st_critical
  ∧ (length (auditLogs st_critical) ≤ S (length (auditLogs st_two)))%nat.
Proof.
  apply (X5_audit_log_append_only st_two st_critical).
  apply step_put_report.
Defined.

Lemma UpdateReportSchema_description b u d :
  UpdateReportSchema b = Some u → upd_description u = Some d → JS.truthy_str d = true.
Proof.
  intros H Hd. destruct (UpdateReportSchema_object _ _ H) as [fields ->].
  simpl in H. destruct (strict_keys fields); [|discriminate].
  destruct (optional string_min1 (field "title" fields)); simpl in H; [|discriminate].
  destruct (field "description" fields) as [v|]; simpl in H.
  - destruct (string_min1 v) as [s|] eqn:Es; simpl in H; [|discriminate].
    destruct (optional SeverityEnum (field "severity" fields)); simpl in H; [|discriminate].
    injection H as <-. simpl in Hd. injection Hd as <-. eauto using string_min1_truthy.
  - destruct (optional SeverityEnum (field "severity" fields)); simpl in H; [|discriminate].
    injection H as <-. discriminate.
Qed.

Lemma deref_sublist_state st ls l :
  deref (mkState (heap st) ls (nextId st) (auditLogs st)) l = deref st l.
Proof. reflexivity. Qed.

(** X3. In every reachable state every stored report has a non-empty
    title and a non-empty description: no create or update can store an
    empty one. *)
Theorem X3_stored_texts_nonempty (st : State) (r : Report)
    (Hreach : reachable st) (Hr : r ∈ stored st) :
  title r ≠ "" ∧ description r ≠ "".
Proof.
  unfold stored in Hr. apply list_elem_of_fmap in Hr as (l & -> & Hl).
  revert l Hl. induction Hreach as [|st st' Hreach IH Hstep]; intros l Hl.
  - by apply elem_of_nil in Hl.
  - pose proof (reachable_wf _ Hreach) as Hwf.
    destruct (step_cases _ _ Hstep)
      as [->|[(t & d & s & now & _ & Ht & Hd & ->)
         |[(req & i & u & l0 & Hu & Hget & _ & _ & ->)
         |[(i & l0 & a & now & Hget & ->)|(ls & Hsub & ->)]]]].
    + by apply IH.
    + pose proof (deref_addReport_new st t d s now) as Hnew.
      pose proof (deref_addReport_old st t d s now) as Hold.
      remember (ReportStore.addReport st t d s now) as p eqn:E.
      assert (Hrep : reports (snd p) = (reports st ++ [fst p])%list) by (by subst p).
      clear E. rewrite Hrep in Hl. apply elem_of_app in Hl as [Hl|Hl].
      * rewrite Hold by (by apply (wf_alloc _ Hwf)). by apply IH.
      * apply list_elem_of_singleton in Hl as ->. by rewrite Hnew.
    + rewrite deref_push_audit, deref_write. simpl in Hl.
      destruct (decide (l0 = l)) as [->|]; [|by apply IH].
      destruct (IH l Hl) as [Ht Hd]. simpl. split.
      * destruct (upd_title u) as [t|] eqn:Et; [|done]. simpl.
        pose proof (UpdateReportSchema_title _ _ _ Hu Et). by destruct t.
      * destruct (upd_description u) as [d|] eqn:Ed; [|done]. simpl.
        pose proof (UpdateReportSchema_description _ _ _ Hu Ed). by destruct d.
    + rewrite deref_write. simpl in Hl.
      destruct (decide (l0 = l)) as [->|]; by apply IH.
    + rewrite deref_sublist_state. simpl in Hl.
      apply IH. by apply (sublist_subseteq _ _ Hsub).
Qed.

Lemma X3_stored_texts_nonempty_witness :
  title (deref st_critical 1%positive) ≠ "" ∧ description (deref st_critical 1%positive) ≠ "".
Proof.
  apply (X3_stored_texts_nonempty st_critical (deref st_critical 1%positive)
           reachable_st_critical).
  vm_compute. apply list_elem_of_here.
Defined.

(** ** The audit entries *)

Lemma Severity_str_inj a b : Severity_str a = Severity_str b → a = b.
Proof. by destruct a, b. Qed.

Lemma changes_of_real u r k old new :
  changes_of u r !! k = Some (old, new) → k ∈ audited_fields ∧ old ≠ new.
Proof.
  unfold changes_of, audited_fields.
  destruct (upd_title u) as [t|], (upd_description u) as [d|],
    (upd_severity u) as [s|];
    repeat match goal with
      | |- context [String.eqb ?a ?b] =>
          let E := fresh "E" in
          destruct (String.eqb a b) eqn:E; simpl; [|apply String.eqb_neq in E]
      | |- context [Severity_eqb ?a ?b] =>
          let E := fresh "E" in
          destruct (Severity_eqb a b) eqn:E; simpl
      end;
    intros H;
    repeat match type of H with
      | <[_ := _]> _ !! _ = Some _ =>
          rewrite lookup_insert in H; case_decide; [injection H as <- <-; subst k|]
      | ∅ !! _ = Some _ => by rewrite lookup_empty in H
      end;
    (split; [set_solver|]); try congruence.
  all: intros Heq; apply Severity_str_inj in Heq; subst;
    by rewrite Severity_eqb_refl in *.
Qed.

Lemma real_diff_mono st st' e :
  nextId st ≤ nextId st' → real_diff st e → real_diff st' e.
Proof.
  intros Hle (Hne & Hk & Hid). unfold real_diff. split; [done|]. split; [done|]. lia.
Qed.

(** X6. Every entry of the audit log of a reachable state records a real
    change: its changes map is not empty, holds only the fields title,
    description and severity, each with an old value different from the
    new one, and it names an id the counter has handed out. *)
Theorem X6_audit_entries_are_real_diffs (st : State) (e : AuditEntry)
    (Hreach : reachable st) (He : e ∈ auditLogs st) :
  real_diff st e.
Proof.
  revert e He. induction Hreach as [|st st' Hreach IH Hstep]; intros e He.
  - by apply elem_of_nil in He.
  - pose proof (reachable_wf _ Hreach) as Hwf.
    destruct (step_cases _ _ Hstep)
      as [->|[(t & d & s & now & _ & _ & _ & ->)
         |[(req & i & u & l0 & Hu & Hget & _ & Hch & ->)
         |[(i & l0 & a & now & Hget & ->)|(ls & Hsub & ->)]]]].
    + by apply IH.
    + apply (real_diff_mono st); [simpl; lia|]. by apply IH.
    + simpl in He. apply elem_of_app in He as [He|He].
      * by apply IH.
      * apply list_elem_of_singleton in He as ->.
        apply getReport_Some in Hget as [Hl _].
        unfold real_diff. simpl. split; [by apply changed_changes_nonempty|].
        split; [intros k old new; apply changes_of_real|].
        by apply (wf_id_range _ Hwf).
    + by apply IH.
    + by apply IH.
Qed.

Lemma X6_audit_entries_are_real_diffs_witness :
  ∃ e, auditLogs st_critical = [e] ∧ real_diff st_critical e.
Proof.
  eexists. split; [reflexivity|].
  apply (X6_audit_entries_are_real_diffs st_critical _ reachable_st_critical).
  vm_compute. apply list_elem_of_here.
Defined.

(** ** What no step touches *)

(** X9. No step rewrites a stored report's identity or history: for every
    report stored before a step from a reachable state, its id, creation
    date and entries are the same afterwards, and its attachments
    afterwards start with its attachments before (attachments are only
    ever appended). *)
Theorem X9_identity_and_attachments_are_kept (st st' : State) (l : loc)
    (Hreach : reachable st) (Hstep : step st st') (Hl : l ∈ reports st) :
  id (deref st' l) = id (deref st l)
  ∧ createdAt (deref st' l) = createdAt (deref st l)
  ∧ entries (deref st' l) = entries (deref st l)
  ∧ attachments (deref st l) `prefix_of` attachments (deref st' l).
Proof.
  pose proof (reachable_wf _ Hreach) as Hwf.
  destruct (step_cases _ _ Hstep)
    as [->|[(t & d & s & now & _ & _ & _ & ->)
       |[(req & i & u & l0 & _ & _ & _ & _ & ->)
       |[(i & l0 & a & now & _ & ->)|(ls & _ & ->)]]]].
  - done.
  - rewrite deref_addReport_old by (by apply (wf_alloc _ Hwf)). done.
  - rewrite deref_push_audit, deref_write.
    destruct (decide (l0 = l)) as [->|]; done.
  - rewrite deref_write. destruct (decide (l0 = l)) as [->|]; [|done].
    simpl. repeat split. by apply prefix_app_r.
  - done.
Qed.

Lemma X9_identity_and_attachments_are_kept_witness :
  id (deref st_uploaded 1%positive) = id (deref st_two 1%positive)
  ∧ createdAt (deref st_uploaded 1%positive) = createdAt (deref st_two 1%positive)
  ∧ entries (deref st_uploaded 1%positive) = entries (deref st_two 1%positive)
  ∧ attachments (deref st_two 1%positive)
    `prefix_of` attachments (deref st_uploaded 1%positive).
Proof.
  apply (X9_identity_and_attachments_are_kept st_two st_uploaded 1%positive
           reachable_st_two).
  - apply step_post_attachment.
  - vm_compute. apply list_elem_of_here.
Defined.

(** ** Updates *)

Lemma changed_supplied u r :
  changed u r = true →
  upd_title u ≠ None ∨ upd_description u ≠ None ∨ upd_severity u ≠ None.
Proof.
  unfold changed.
  destruct (upd_title u), (upd_description u), (upd_severity u); simpl; auto.
Qed.

Lemma getReport_push_audit e st i :
  ReportStore.getReport (push_audit e st) i = ReportStore.getReport st i.
Proof. reflexivity. Qed.

(** X10. An update that passes every check stores each supplied field as
    supplied and keeps each omitted field, answers 200 with the summary of
    the stored report, and -- exactly when some supplied value differs from
    the stored one -- sets [updatedAt] to the request time and appends one
    audit entry naming the caller; otherwise the state is untouched. *)
Theorem X10_update_applies_supplied_fields
    (req : Request) (st : State) (i : Z) (u : Updates) (l : loc)
    (Hid : JS.parseInt (params_id req) = Some i)
    (Hkeys : from_option keys_length O (req_body req) ≠ O)
    (Hu : UpdateReportSchema (req_body req) = Some u)
    (Hget : ReportStore.getReport st i = Some l)
    (Hfree : title_taken st u i = false)
    (Hesc : escalation_denied u req = false) :
  fst (put_report req st)
  = mkResponse 200 (ReportSummary (summary (deref (snd (put_report req st)) l)))
  ∧ title (deref (snd (put_report req st)) l) = default (title (deref st l)) (upd_title u)
  ∧ description (deref (snd (put_report req st)) l)
    = default (description (deref st l)) (upd_description u)
  ∧ severity (deref (snd (put_report req st)) l)
    = default (severity (deref st l)) (upd_severity u)
  ∧ (changed u (deref st l) = true →
     updatedAt (deref (snd (put_report req st)) l) = req_now req
     ∧ auditLogs (snd (put_report req st))
       = (auditLogs st ++ [audit_of req st l u])%list)
  ∧ (changed u (deref st l) = false → snd (put_report req st) = st).
Proof.
  destruct (UpdateReportSchema_object _ _ Hu) as [fields Hbody].
  assert (Htr : truthy_body (req_body req) = true) by (by rewrite Hbody).
  rewrite (put_report_pass req st i u l Hid Htr Hkeys Hu Hget Hfree Hesc).
  destruct (changed u (deref st l)) eqn:Hch; cbn [fst snd].
  - rewrite deref_push_audit, deref_write_eq. by repeat split.
  - assert (Hpatch : patch u (deref st l) = deref st l).
    { unfold changed in Hch. unfold patch.
      destruct (deref st l) as [ri rt rd rs rc ru re ra]. simpl in *.
      destruct (upd_title u) as [t|], (upd_description u) as [d|],
        (upd_severity u) as [s|]; simpl in *;
        repeat match goal with
          | H : context [negb (String.eqb ?a ?b)] |- _ =>
              destruct (String.eqb_spec a b); simpl in H; try discriminate
          | H : context [negb (Severity_eqb ?a ?b)] |- _ =>
              let E := fresh in
              destruct (Severity_eqb a b) eqn:E; simpl in H; try discriminate;
              apply Severity_eqb_eq in E
          end; subst; reflexivity. }
    repeat split; try done.
    + by rewrite <- Hpatch at 1.
    + by rewrite <- Hpatch at 1.
    + by rewrite <- Hpatch at 1.
Qed.

Lemma X10_update_applies_supplied_fields_witness :
  title (deref (snd (put_report
                       (request "2" (Some (JObj [("title", JStr "C2")])) dev1 800)
                       st_two)) 2%positive) = "C2"
  ∧ description (deref (snd (put_report
                       (request "2" (Some (JObj [("title", JStr "C2")])) dev1 800)
                       st_two)) 2%positive) = "D".
Proof.
  destruct (X10_update_applies_supplied_fields
              (request "2" (Some (JObj [("title", JStr "C2")])) dev1 800)
              st_two 2 (mkUpdates (Some "C2") None None) 2%positive
              eq_refl ltac:(discriminate) eq_refl eq_refl eq_refl eq_refl)
    as (_ & Ht & Hd & _).
  split; [exact Ht | exact Hd].
Defined.

(** X7. PUT is idempotent on the state: in a reachable state, serving the
    same update request a second time leaves the state the first serving
    produced (no further audit entry, [updatedAt] not moved again). *)
Theorem X7_update_is_idempotent (req : Request) (st : State)
    (Hreach : reachable st) :
  snd (put_report req (snd (put_report req st))) = snd (put_report req st).
Proof.
  pose proof (reachable_wf _ Hreach) as Hwf.
  pose proof (wf_put_report req st Hwf) as Hwf'.
  destruct (put_report_cases req st)
    as [Hsame|(i & u & l & Hid & Hu & Hget & Hfree & Hesc & Hch & Heq)].
  - by rewrite !Hsame.
  - rewrite Heq in *. cbn [snd] in *.
    set (st' := push_audit (audit_of req st l u)
                  (write l (set_updatedAt (req_now req) ∘ patch u) st)) in *.
    destruct (UpdateReportSchema_supplied _ _ Hu (changed_supplied _ _ Hch))
      as [Htr Hk].
    assert (Hobj : deref st' l = set_updatedAt (req_now req) (patch u (deref st l))).
    { unfold st'. by rewrite deref_push_audit, deref_write_eq. }
    assert (Hget' : ReportStore.getReport st' i = Some l).
    { unfold st'. rewrite getReport_push_audit, getReport_write; done. }
    assert (Ht : ∀ t, upd_title u = Some t → t = title (deref st' l)).
    { intros t Et. rewrite Hobj. simpl. by rewrite Et. }
    assert (Hd : ∀ d, upd_description u = Some d → d = description (deref st' l)).
    { intros d Ed. rewrite Hobj. simpl. by rewrite Ed. }
    assert (Hs : ∀ s, upd_severity u = Some s → s = severity (deref st' l)).
    { intros s Es. rewrite Hobj. simpl. by rewrite Es. }
    pose proof (own_title_not_taken st' i u l Hwf' Hget' Ht) as Hfree'.
    rewrite (put_report_pass req st' i u l Hid Htr Hk Hu Hget' Hfree' Hesc).
    by rewrite (unchanged_not_changed u _ Ht Hd Hs).
Qed.

Lemma X7_update_is_idempotent_witness :
  snd (put_report (request "1" (Some (JObj [("severity", JStr "critical")])) admin1 300)
                  st_critical) = st_critical.
Proof.
  apply (X7_update_is_idempotent
           (request "1" (Some (JObj [("severity", JStr "critical")])) admin1 300)
           st_two reachable_st_two).
Defined.

(** X11. An update or an upload touches one report only: the array of
    stored reports and the id counter are as before, and so is every
    object other than the one [getReport] finds for the id in the path. *)
Theorem X11_requests_touch_one_report
    (jwt_sign : Claims → Z → Date → string) (req : Request) (st : State) (l' : loc)
    (Hother : ∀ i, JS.parseInt (params_id req) = Some i →
                   ReportStore.getReport st i ≠ Some l') :
  deref (snd (put_report req st)) l' = deref st l'
  ∧ deref (snd (post_attachment jwt_sign req st)) l' = deref st l'
  ∧ reports (snd (put_report req st)) = reports st
  ∧ nextId (snd (put_report req st)) = nextId st
  ∧ reports (snd (post_attachment jwt_sign req st)) = reports st
  ∧ nextId (snd (post_attachment jwt_sign req st)) = nextId st.
Proof.
  destruct (put_report_cases req st)
    as [->|(i & u & l & Hid & _ & Hget & _ & _ & _ & ->)];
    destruct (post_attachment_cases jwt_sign req st)
      as [[-> _]|(i2 & l2 & f & Hid2 & Hget2 & _ & ->)];
    cbn [snd]; rewrite ?deref_push_audit, ?deref_write; repeat split;
    repeat match goal with
      | |- context [decide (?a = l')] =>
          destruct (decide (a = l')) as [->|]; [exfalso|]
      end; try done.
  all: try (by eapply Hother; [exact Hid|]).
  all: try (by eapply Hother; [exact Hid2|]).
Qed.

Lemma X11_requests_touch_one_report_witness :
  deref st_critical 2%positive = deref st_two 2%positive
  ∧ deref st_uploaded 2%positive = deref st_two 2%positive.
Proof.
  destruct (X11_requests_touch_one_report toy_sign
              (request "1" (Some (JObj [("severity", JStr "critical")])) admin1 300)
              st_two 2%positive) as (Hput & _).
  { intros i [= <-]. vm_compute. discriminate. }
  destruct (X11_requests_touch_one_report toy_sign (upload "1" file1 dev1 1000)
              st_two 2%positive) as (_ & Hup & _).
  { intros i [= <-]. vm_compute. discriminate. }
  split; [exact Hput | exact Hup].
Defined.

(** ** Sorting and paging of entries *)

Section Sorting.

Variable before : Entry → Entry → bool.
Variable R : Entry → Entry → Prop.
Hypothesis R_trans : ∀ a b c, R a b → R b c → R a c.
Hypothesis before_true : ∀ y x, before y x = true → R y x.
Hypothesis before_false : ∀ y x, before y x = false → R x y.
Hypothesis before_strict :
  ∀ y x, before y x = true → entry_createdAt y ≠ entry_createdAt x.

Lemma insert_entry_perm x l : insert_entry before x l ≡ₚ x :: l.
Proof.
  induction l as [|y l IH]; simpl; [done|].
  destruct (before y x); [|done]. rewrite IH. apply Permutation_swap.
Qed.

Lemma sort_entries_perm l : sort_entries before l ≡ₚ l.
Proof.
  induction l as [|x l IH]; simpl; [done|].
  unfold sort_entries in *. simpl. by rewrite insert_entry_perm, IH.
Qed.

Lemma insert_entry_sorted x l :
  StronglySorted R l → StronglySorted R (insert_entry before x l).
Proof.
  induction 1 as [|y l Hsorted IH Hall]; simpl.
  - repeat constructor.
  - destruct (before y x) eqn:E.
    + constructor; [done|]. rewrite insert_entry_perm.
      constructor; [by apply before_true | done].
    + constructor; [by constructor|]. constructor; [by apply before_false|].
      eapply Forall_impl; [exact Hall|]. intros z Hz.
      eapply R_trans; [by apply before_false | done].
Qed.

Lemma sort_entries_sorted l : StronglySorted R (sort_entries before l).
Proof.
  induction l as [|x l IH]; [constructor|].
  unfold sort_entries in *. simpl. by apply insert_entry_sorted.
Qed.

Lemma insert_entry_stable t x l :
  filter (fun e => entry_createdAt e = t) (insert_entry before x l)
  = filter (fun e => entry_createdAt e = t) (x :: l).
Proof.
  induction l as [|y l IH]; [done|]. simpl.
  destruct (before y x) eqn:E; [|done].
  apply before_strict in E. rewrite !filter_cons, IH, !filter_cons.
  repeat case_decide; congruence.
Qed.

Lemma sort_entries_stable t l :
  filter (fun e => entry_createdAt e = t) (sort_entries before l)
  = filter (fun e => entry_createdAt e = t) l.
Proof.
  induction l as [|x l IH]; [done|].
  unfold sort_entries in *. simpl. rewrite insert_entry_stable, !filter_cons.
  by rewrite IH.
Qed.

End Sorting.

Lemma sort_entries_requested req l :
  let es := sort_entries (if bool_decide (query_order req = Some "asc")
                          then asc_before else desc_before) l in
  es ≡ₚ l
  ∧ StronglySorted (requested_order req) es
  ∧ ∀ t, filter (fun e => entry_createdAt e = t) es
         = filter (fun e => entry_createdAt e = t) l.
Proof.
  unfold requested_order. destruct (bool_decide (query_order req = Some "asc"));
    simpl; (split; [apply sort_entries_perm|]); split.
  - apply sort_entries_sorted; unfold oldest_first, asc_before; intros; lia.
  - intros t. apply sort_entries_stable. unfold asc_before. intros; lia.
  - apply sort_entries_sorted; unfold newest_first, desc_before; intros; lia.
  - intros t. apply sort_entries_stable. unfold desc_before. intros; lia.
Qed.

(** X12. GET with [include=entries] and no paging parameter answers 200
    with all the entries of the report, each exactly once, sorted by
    creation time -- oldest first for [order=asc], newest first for any
    other or no [order] -- and entries created at the same time keep the
    order they are stored in. *)
Theorem X12_entries_are_served_sorted
    (req : Request) (st : State) (i : Z) (l : loc)
    (Hid : JS.parseInt (params_id req) = Some i)
    (Hget : ReportStore.getReport st i = Some l)
    (Hinclude : query_include req = Some "entries")
    (Hpage : query_page req = None)
    (HpageSize : query_pageSize req = None) :
  ∃ es,
    get_report req st = mkResponse 200 (ReportEntries (summary (deref st l)) es)
    ∧ es ≡ₚ entries (deref st l)
    ∧ StronglySorted (requested_order req) es
    ∧ ∀ t, filter (fun e => entry_createdAt e = t) es
           = filter (fun e => entry_createdAt e = t) (entries (deref st l)).
Proof.
  eexists. split.
  - unfold get_report, paging. rewrite Hid, Hget, Hinclude, Hpage, HpageSize.
    reflexivity.
  - apply sort_entries_requested.
Qed.

Lemma X12_entries_are_served_sorted_witness :
  ∃ es,
    get_report (read_entries "1" None None dev1) st_entries
    = mkResponse 200 (ReportEntries (summary (deref st_entries 1%positive)) es)
    ∧ es ≡ₚ three_entries
    ∧ StronglySorted newest_first es.
Proof.
  destruct (X12_entries_are_served_sorted (read_entries "1" None None dev1)
              st_entries 1 1%positive eq_refl eq_refl eq_refl eq_refl eq_refl)
    as (es & Hres & Hperm & Hsorted & _).
  exists es. split; [exact Hres|]. split; [exact Hperm | exact Hsorted].
Defined.








(** ** Deleting *)

Lemma findIndex_find st p ls :
  match ReportStore.findIndex st p ls with
  | Some k => ∃ l, ls !! k = Some l ∧ List.find (fun l => p (deref st l)) ls = Some l
  | None => List.find (fun l => p (deref st l)) ls = None
  end.
Proof.
  induction ls as [|a ls IH]; simpl; [done|].
  destruct (p (deref st a)); [by exists a|].
  destruct (ReportStore.findIndex st p ls) as [k|]; simpl; [|done].
  destruct IH as (l & Hl & Hfind). by exists l.
Qed.

Lemma find_all_false {A} (p : A → bool) (ls : list A) :
  (∀ x, x ∈ ls → p x = false) → List.find p ls = None.
Proof.
  intros H. rewrite <- (app_nil_r ls). by rewrite find_app_r.
Qed.

Lemma find_skip_false {A} (p : A → bool) (l1 l2 : list A) (x : A) :
  p x = false → List.find p (l1 ++ x :: l2) = List.find p (l1 ++ l2).
Proof.
  intros Hx. induction l1 as [|a l1 IH]; simpl; [by rewrite Hx|].
  by destruct (p a).
Qed.

(** X15. [deleteReport] of an id that is not stored returns false and
    changes nothing. In a reachable state, [deleteReport] of a stored id
    returns true, after which that id is not found any more, every other
    id is found as before, and the objects, the id counter and the audit
    log are as they were. *)
Theorem X15_deleteReport_removes_one_report (st : State) (i : Z) :
  (ReportStore.getReport st i = None → ReportStore.deleteReport st i = (false, st))
  ∧ (∀ l, reachable st → ReportStore.getReport st i = Some l →
          fst (ReportStore.deleteReport st i) = true
          ∧ ReportStore.getReport (snd (ReportStore.deleteReport st i)) i = None
          ∧ (∀ j, j ≠ i →
                  ReportStore.getReport (snd (ReportStore.deleteReport st i)) j
                  = ReportStore.getReport st j)
          ∧ heap (snd (ReportStore.deleteReport st i)) = heap st
          ∧ nextId (snd (ReportStore.deleteReport st i)) = nextId st
          ∧ auditLogs (snd (ReportStore.deleteReport st i)) = auditLogs st).
Proof.
  pose proof (findIndex_find st (fun report => Z.eqb (id report) i) (reports st)) as Hfi.
  unfold ReportStore.deleteReport. split.
  - intros Hnone. unfold ReportStore.getReport in Hnone.
    destruct (ReportStore.findIndex _ _ _) as [k|]; [|done].
    destruct Hfi as (l & _ & Hfind). congruence.
  - intros l Hreach Hget. pose proof (reachable_wf _ Hreach) as Hwf.
    unfold ReportStore.getReport in Hget.
    destruct (ReportStore.findIndex _ _ _) as [k|]; [|congruence].
    destruct Hfi as (l' & Hk & Hfind). assert (l' = l) as -> by congruence.
    fold (ReportStore.getReport st i) in Hget.
    apply getReport_Some in Hget as [Hl Hidl].
    pose proof (take_drop_middle _ _ _ Hk) as Hsplit.
    pose proof (wf_nodup _ Hwf) as Hnd. rewrite <- Hsplit in Hnd.
    apply NoDup_app in Hnd as (_ & Hleft & Hright).
    apply NoDup_cons in Hright as [Hright _].
    cbn [fst snd heap nextId auditLogs]. repeat split.
    + unfold ReportStore.getReport, ReportStore.splice1. cbn [reports].
      apply find_all_false. intros x Hx.
      change (deref _ x) with (deref st x).
      apply Z.eqb_neq. intros Hidx.
      assert (Hxin : x ∈ reports st).
      { rewrite <- Hsplit. apply elem_of_app in Hx as [?|?];
          apply elem_of_app; [by left | right; by apply list_elem_of_further]. }
      assert (x = l) as -> by (apply (wf_id_inj _ Hwf); [done..|congruence]).
      apply elem_of_app in Hx as [Hx|Hx]; [|done].
      apply (Hleft l Hx), list_elem_of_here.
    + intros j Hj. unfold ReportStore.getReport, ReportStore.splice1. cbn [reports].
      rewrite <- Hsplit at 3.
      change (fun l0 => id (deref ?s l0) =? j) with (fun l0 => id (deref st l0) =? j).
      symmetry. apply find_skip_false. apply Z.eqb_neq. congruence.
Qed.

Lemma X15_deleteReport_removes_one_report_witness :
  fst (ReportStore.deleteReport st_two 1) = true
  ∧ ReportStore.getReport st_deleted 1 = None
  ∧ ReportStore.getReport st_deleted 2 = ReportStore.getReport st_two 2.
Proof.
  destruct (X15_deleteReport_removes_one_report st_two 1) as (_ & Hdel).
  destruct (Hdel 1%positive reachable_st_two eq_refl) as (Htrue & Hgone & Hrest & _).
  split; [exact Htrue|]. split; [exact Hgone|]. apply Hrest. lia.
Defined.

(** ** The store's own update *)

(** X16. [ReportStore.updateReport] of an id that is not stored returns
    [undefined] and changes nothing. For a stored id it returns the stored
    object with each supplied field set and each omitted field kept -- and,
    unlike the PUT route, it sets [updatedAt] to the current time even when
    no field is supplied, and it never writes to the audit log. *)
Theorem X16_updateReport_sets_fields
    (st : State) (i : Z) (t d : option string) (s : option Severity) (now : Date) :
  (ReportStore.getReport st i = None →
   ReportStore.updateReport st i t d s now = (None, st))
  ∧ (∀ l, ReportStore.getReport st i = Some l →
          fst (ReportStore.updateReport st i t d s now) = Some l
          ∧ deref (snd (ReportStore.updateReport st i t d s now)) l
            = set_updatedAt now (patch (mkUpdates t d s) (deref st l))
          ∧ (∀ l', l' ≠ l →
                   deref (snd (ReportStore.updateReport st i t d s now)) l'
                   = deref st l')
          ∧ auditLogs (snd (ReportStore.updateReport st i t d s now)) = auditLogs st).
Proof.
  unfold ReportStore.updateReport. split; [by intros ->|].
  intros l ->. cbn [fst snd].
  assert (Hstate :
    write l (set_updatedAt now)
      (match s with
       | Some s0 => write l (set_severity s0) | None => fun x => x
       end
         (match d with
          | Some d0 => write l (set_description d0) | None => fun x => x
          end
            (match t with
             | Some t0 => write l (set_title t0) st | None => st
             end)))
    = write l (set_updatedAt now ∘ patch (mkUpdates t d s)) st).
  { destruct t, d, s; rewrite ?write_write; apply write_ext;
      unfold patch; simpl; by destruct (deref st l). }
  assert (Hsame : ∀ A (o : option A) (f : A → State → State) (x : State),
            match o with Some a => f a x | None => x end
            = match o with Some a => f a | None => fun y => y end x)
    by (by intros A []).
  rewrite (Hsame _ d (fun a => write l (set_description a))),
    (Hsame _ s (fun a => write l (set_severity a))), Hstate.
  repeat split.
  - by rewrite deref_write_eq.
  - intros l' Hne. by rewrite deref_write_ne.
Qed.

Lemma X16_updateReport_sets_fields_witness :
  deref (snd (ReportStore.updateReport st_two 1 None None None 999)) 1%positive
  = mkReport 1 "A" "B" low 100 999 [] [].
Proof.
  destruct (X16_updateReport_sets_fields st_two 1 None None None 999) as (_ & Hset).
  destruct (Hset 1%positive eq_refl) as (_ & Hobj & _).
  rewrite Hobj. reflexivity.
Defined.

(** ** Upload, then download *)

(** X17. The URL an upload answers with works: when the codec accepts, at
    the time of the download, the token it signed at the time of the
    upload, a download of the same report id and file name with that token
    is answered 200 with the content type and original name of the
    uploaded file (the file name being non-empty and new to the report). *)
Theorem X17_uploaded_file_can_be_downloaded
    (jwt_sign : Claims → Z → Date → string)
    (jwt_verify : string → Date → option Claims)
    (up dl : Request) (st : State) (i : Z) (l : loc) (f : UploadedFile)
    (Hid : JS.parseInt (params_id up) = Some i)
    (Hget : ReportStore.getReport st i = Some l)
    (Hfile : req_file up = Some f)
    (Hname : file_filename f ≠ "")
    (Hnew : ∀ a, a ∈ attachments (deref st l) → att_filename a ≠ file_filename f)
    (Hid' : JS.parseInt (params_id dl) = Some i)
    (Hname' : params_filename dl = file_filename f)
    (Htoken : query_token dl
              = Some (jwt_sign (FileClaims i (file_filename f)) (15 * 60) (req_now up)))
    (Hpresent : jwt_sign (FileClaims i (file_filename f)) (15 * 60) (req_now up) ≠ "")
    (Hcodec : jwt_verify
                (jwt_sign (FileClaims i (file_filename f)) (15 * 60) (req_now up))
                (req_now dl)
              = Some (FileClaims i (file_filename f))) :
  fst (post_attachment jwt_sign up st)
  = mkResponse 200
      (DownloadUrl i (file_filename f)
         (jwt_sign (FileClaims i (file_filename f)) (15 * 60) (req_now up)))
  ∧ get_attachment jwt_verify dl (snd (post_attachment jwt_sign up st))
    = mkResponse 200
        (SendFile (file_mimetype f) (file_originalname f)
                  ("uploads/" +:+ file_filename f)).
Proof.
  rewrite (post_attachment_ok jwt_sign up st i l f Hid Hget Hfile). cbn [fst snd].
  split; [done|]. unfold get_attachment.
  rewrite Hid', Hname', (truthy_str_true _ Hname), Htoken,
    (truthy_str_true _ Hpresent), Hcodec.
  simpl scope_mismatch. rewrite Z.eqb_refl, String.eqb_refl. cbn [negb orb].
  rewrite getReport_write by done. rewrite Hget, deref_write_eq. simpl.
  rewrite find_app_r.
  - simpl. by rewrite String.eqb_refl.
  - intros a Ha. apply String.eqb_neq. by apply Hnew.
Qed.

Lemma X17_uploaded_file_can_be_downloaded_witness :
  get_attachment toy_verify (download "1" "f1" (Some "cap-1-f1") 2000) st_uploaded
  = mkResponse 200 (SendFile "text/plain" "trace.log" "uploads/f1").
Proof.
  destruct (X17_uploaded_file_can_be_downloaded toy_sign toy_verify
              (upload "1" file1 dev1 1000) (download "1" "f1" (Some "cap-1-f1") 2000)
              st_two 1 1%positive file1 eq_refl eq_refl eq_refl ltac:(discriminate))
    as (_ & Hdl).
  - intros a Ha. vm_compute in Ha. by apply elem_of_nil in Ha.
  - reflexivity.
  - reflexivity.
  - reflexivity.
  - discriminate.
  - reflexivity.
  - exact Hdl.
Defined.

(** ** [titleExists] *)

(** X18. [titleExists] looks at titles up to letter case only: it holds,
    with nothing excluded, exactly when some stored report has the same
    title up to case; it gives the same answer for two titles that are
    equal up to case; and an [excludeId] of [0] excludes nothing, like no
    [excludeId] at all. *)
Theorem X18_titleExists_is_case_insensitive (st : State) (t : string) :
  (ReportStore.titleExists st t None = true
   ↔ ∃ r, r ∈ stored st ∧ same_title (title r) t)
  ∧ (∀ t' ex, same_title t t' →
              ReportStore.titleExists st t ex = ReportStore.titleExists st t' ex)
  ∧ ReportStore.titleExists st t (Some 0) = ReportStore.titleExists st t None.
Proof.
  repeat split.
  - intros H. apply titleExists_true in H as (l & Hl & Hs & _).
    exists (deref st l). split; [|done]. unfold stored.
    apply list_elem_of_fmap. by exists l.
  - intros (r & Hr & Hs). unfold stored in Hr.
    apply list_elem_of_fmap in Hr as (l & -> & Hl).
    apply titleExists_true. exists l. by repeat split.
  - intros t' ex Hs. unfold ReportStore.titleExists, same_title in *. by rewrite Hs.
Qed.

Lemma X18_titleExists_is_case_insensitive_witness :
  ReportStore.titleExists st_two "a" (Some 2)
  = ReportStore.titleExists st_two "A" (Some 2).
Proof.
  destruct (X18_titleExists_is_case_insensitive st_two "a") as (_ & Hcase & _).
  apply Hcase. reflexivity.
Defined.

(** ** Authentication *)

Lemma startsWith_app p rest : startsWith p (p +:+ rest) = true.
Proof.
  induction p as [|a p IH]; simpl; [done|]. by rewrite Ascii.eqb_refl, IH.
Qed.

Lemma startsWith_inv p s : startsWith p s = true → ∃ rest, s = p +:+ rest.
Proof.
  revert s. induction p as [|a p IH]; intros s; simpl.
  - by exists s.
  - destruct s as [|b s]; [discriminate|].
    destruct (Ascii.eqb_spec a b) as [->|]; [|discriminate]. simpl.
    intros H. destruct (IH s H) as [rest ->]. by exists rest.
Qed.

Lemma substring_app p rest : substring (String.length p) (p +:+ rest) = rest.
Proof. induction p as [|a p IH]; simpl; [by destruct rest | done]. Qed.

(** X19. [requireAuth] lets a request through exactly when its
    [authorization] header is ["Bearer "] followed by a token the codec
    accepts, and hands on the claims decoded from that token; in every
    other case (no header, another scheme or letter case, a rejected
    token) it answers the same 401 "Unauthorized". *)
Theorem X19_requireAuth_accepts_valid_bearer_tokens
    (jwt_verify : string → Date → option Claims)
    (authorization : option string) (now : Date) :
  (∀ decoded,
     requireAuth jwt_verify authorization now = inr decoded
     ↔ ∃ token, authorization = Some ("Bearer " +:+ token)
                ∧ jwt_verify token now = Some decoded)
  ∧ (∀ res, requireAuth jwt_verify authorization now = inl res →
            res = mkResponse 401 (Error "Unauthorized")).
Proof.
  unfold requireAuth. split.
  - intros decoded. split.
    + destruct authorization as [h|]; [|discriminate].
      destruct (JS.truthy_str h); [|discriminate]. cbn [negb orb].
      destruct (startsWith "Bearer " h) eqn:Hs; [|discriminate]. cbn [negb].
      apply startsWith_inv in Hs as [token ->].
      change 7%nat with (String.length "Bearer "). rewrite substring_app.
      destruct (jwt_verify token now) eqn:Hv; [|discriminate].
      intros [= <-]. by exists token.
    + intros (token & -> & Hv).
      change 7%nat with (String.length "Bearer ").
      rewrite startsWith_app, substring_app, Hv. done.
  - intros res. destruct authorization as [h|]; [|by intros [= <-]].
    destruct (negb (JS.truthy_str h) || negb (startsWith "Bearer " h));
      [by intros [= <-]|].
    destruct (jwt_verify _ _); [discriminate | by intros [= <-]].
Qed.

Lemma X19_requireAuth_accepts_valid_bearer_tokens_witness :
  requireAuth toy_verify (Some "Bearer cap-1-f1") 2000 = inr (FileClaims 1 "f1")
  ∧ requireAuth toy_verify (Some "bearer cap-1-f1") 2000
    = inl (mkResponse 401 (Error "Unauthorized")).
Proof.
  destruct (X19_requireAuth_accepts_valid_bearer_tokens toy_verify
              (Some "Bearer cap-1-f1") 2000) as (Hok & _).
  destruct (X19_requireAuth_accepts_valid_bearer_tokens toy_verify
              (Some "bearer cap-1-f1") 2000) as (_ & Hko).
  split.
  - apply Hok. by exists "cap-1-f1".
  - destruct (requireAuth toy_verify (Some "bearer cap-1-f1") 2000) as [res|c] eqn:E.
    + by rewrite (Hko res eq_refl).
    + vm_compute in E. discriminate.
Defined.

(** ** Lenient ids and strict bodies *)

Lemma read_digits_app s : ∀ acc rest,
  no_leading_digit rest → JS.read_digits acc (s +:+ rest) = JS.read_digits acc s.
Proof.
  induction s as [|c s IH]; intros acc rest Hrest; simpl.
  - destruct rest as [|c rest]; [done|]. simpl in *. by rewrite Hrest.
  - destruct (JS.digit_val c); [by apply IH | done].
Qed.

Lemma skip_spaces_app s rest c t :
  JS.skip_spaces s = String c t → JS.skip_spaces (s +:+ rest) = String c (t +:+ rest).
Proof.
  induction s as [|a s IH]; simpl; [discriminate|].
  destruct (JS.is_space a); [apply IH|]. by intros [= -> ->].
Qed.

Lemma parseInt_app s z rest :
  JS.parseInt s = Some z → no_leading_digit rest → JS.parseInt (s +:+ rest) = Some z.
Proof.
  intros Hs Hrest. unfold JS.parseInt in *.
  destruct (JS.skip_spaces s) as [|c t] eqn:Hskip; [discriminate|].
  rewrite (skip_spaces_app _ rest _ _ Hskip).
  destruct c as [[] [] [] [] [] [] [] []]; simpl in *;
    rewrite ?read_digits_app by done; done.
Qed.

(** X20. Path ids are read leniently, as [parseInt] reads them: whatever
    follows a numeric id and does not start with a digit is ignored, so
    every route answers a path id such as ["12abc"] exactly as it answers
    ["12"]. *)
Theorem X20_trailing_text_in_id_is_ignored
    (jwt_sign : Claims → Z → Date → string)
    (jwt_verify : string → Date → option Claims)
    (req : Request) (st : State) (z : Z) (rest : string)
    (Hid : JS.parseInt (params_id req) = Some z)
    (Hrest : no_leading_digit rest) :
  JS.parseInt (params_id req +:+ rest) = Some z
  ∧ get_report (with_id (params_id req +:+ rest) req) st = get_report req st
  ∧ put_report (with_id (params_id req +:+ rest) req) st = put_report req st
  ∧ post_attachment jwt_sign (with_id (params_id req +:+ rest) req) st
    = post_attachment jwt_sign req st
  ∧ get_attachment jwt_verify (with_id (params_id req +:+ rest) req) st
    = get_attachment jwt_verify req st.
Proof.
  pose proof (parseInt_app _ _ _ Hid Hrest) as Happ.
  repeat split; [done|..];
    unfold get_report, put_report, post_attachment, get_attachment, paging;
    cbn [with_id params_id params_filename query_include query_order query_page
         query_pageSize query_token req_body req_user req_file req_now];
    by rewrite Happ, Hid.
Qed.

Lemma X20_trailing_text_in_id_is_ignored_witness :
  get_report (request "2abc" None dev1 0) st_two = get_report (request "2" None dev1 0) st_two.
Proof.
  destruct (X20_trailing_text_in_id_is_ignored toy_sign toy_verify
              (request "2" None dev1 0) st_two 2 "abc" eq_refl eq_refl)
    as (_ & Hget & _).
  exact Hget.
Defined.

Lemma strict_keys_false fields k v :
  (k, v) ∈ fields → k ∉ audited_fields → strict_keys fields = false.
Proof.
  intros Hin Hk. apply not_true_iff_false. intros Hstrict.
  unfold strict_keys in Hstrict. rewrite forallb_forall in Hstrict.
  apply list_elem_of_In in Hin. specialize (Hstrict _ Hin). simpl in Hstrict.
  apply Hk. unfold audited_fields.
  apply orb_prop in Hstrict as [Hstrict|Hs].
  - apply orb_prop in Hstrict as [Ht|Hd].
    + apply String.eqb_eq in Ht as ->. apply list_elem_of_here.
    + apply String.eqb_eq in Hd as ->. apply list_elem_of_further, list_elem_of_here.
  - apply String.eqb_eq in Hs as ->.
    apply list_elem_of_further, list_elem_of_further, list_elem_of_here.
Qed.

(** X21. The schemas are strict. A JSON object with a key other than
    title, description and severity is answered 400 by create ("Invalid
    request data") and, for a numeric id, by update ("Invalid update
    data"), the state unchanged in both cases; and a create that is
    accepted without a severity key stores severity low. *)
Theorem X21_bodies_are_validated_strictly
    (req : Request) (st : State) (fields : list (string * JVal))
    (Hbody : req_body req = Some (JObj fields)) :
  (∀ k v, (k, v) ∈ fields → k ∉ audited_fields →
          post_report req st = (mkResponse 400 (ErrorDetails "Invalid request data"), st)
          ∧ ∀ i, JS.parseInt (params_id req) = Some i →
                 put_report req st
                 = (mkResponse 400 (ErrorDetails "Invalid update data"), st))
  ∧ (∀ data, NewReportSchema (req_body req) = Some data →
             field "severity" fields = None → new_severity data = low).
Proof.
  split.
  - intros k v Hin Hk. pose proof (strict_keys_false _ _ _ Hin Hk) as Hstrict.
    split.
    + unfold post_report, NewReportSchema. by rewrite Hbody, Hstrict.
    + intros i Hid. unfold put_report, UpdateReportSchema.
      rewrite Hid, Hbody, Hstrict. simpl.
      destruct fields; [by apply elem_of_nil in Hin | done].
  - intros data Hdata Hsev. unfold NewReportSchema in Hdata.
    rewrite Hbody, Hsev in Hdata.
    destruct (strict_keys fields); [|discriminate].
    destruct (field "title" fields ≫= string_min1); [|discriminate].
    destruct (field "description" fields ≫= string_min1); [|discriminate].
    simpl in Hdata. by injection Hdata as <-.
Qed.

Lemma X21_bodies_are_validated_strictly_witness :
  post_report
    (request "" (Some (JObj [("title", JStr "E"); ("description", JStr "F");
                             ("priority", JNum 1)])) dev1 700) st_two
  = (mkResponse 400 (ErrorDetails "Invalid request data"), st_two).
Proof.
  destruct (X21_bodies_are_validated_strictly
              (request "" (Some (JObj [("title", JStr "E"); ("description", JStr "F");
                                       ("priority", JNum 1)])) dev1 700) st_two
              [("title", JStr "E"); ("description", JStr "F"); ("priority", JNum 1)]
              eq_refl) as (Hstrict & _).
  destruct (Hstrict "priority" (JNum 1)) as (Hpost & _).
  - apply list_elem_of_further, list_elem_of_further, list_elem_of_here.
  - unfold audited_fields.
    repeat (apply not_elem_of_cons; split; [discriminate|]). apply not_elem_of_nil.
  - exact Hpost.
Defined.
